(** * WebXR camera animation importer / exporter

    A shallow embedding of [blender_addon/camera_animation_importer.py]:
    the two operators [WebXRCameraAnimationImporter] and
    [WebXRCameraAnimationExporter], the pose arithmetic they perform with
    [mathutils], and the part of the host scene they read and write.

    Numbers.  A number is kept as the rational it stands for ([Q]);
    Python integers are [Z].  Binary rounding is modelled where a result
    of the code depends on it: the product that [int()] truncates into a
    frame index is the binary64 product of Python floats, and the two
    scale steps round to single precision, in which [mathutils] keeps the
    components of a vector.  The coordinate conversion and the quaternion
    algebra are kept exact: the decimal constants of the source are the
    same rationals here, and a tolerance in a statement about them
    accounts for the truncated constant [0.7071068].

    Effects.  Operator code runs in a state-and-exception monad over the
    host state: an exception leaves the mutations made so far in place,
    which is what [try: ... except Exception] in [execute] observes. *)

From Stdlib Require Import ZArith QArith Qround Qabs Qpower Lia Lra Psatz Ascii String.
From stdpp Require Import base gmap strings list pretty sorting.

Set Warnings "-register-all".

(* ================================================================== *)
(** * Python values and primitives *)
(* ================================================================== *)

(** The exceptions the modelled code can meet.  [HostError] stands for an
    error raised inside a host call (for instance [scene.frame_set]). *)
Inductive Exception :=
  | KeyError (repr_key : string)
  | IndexError
  | TypeError
  | ValueError
  | ZeroDivisionError
  | OverflowError
  | OSError
  | HostError (msg : string).

(** [str(e)]: the text of the exception, kept to its kind. *)
Definition exc_str (e : Exception) : string :=
  match e with
  | KeyError k => k
  | IndexError => "list index out of range"
  | TypeError => "unsupported operand type"
  | ValueError => "invalid value"
  | ZeroDivisionError => "division by zero"
  | OverflowError => "cannot convert float infinity to integer"
  | OSError => "cannot open file"
  | HostError m => m
  end.

Inductive Result (A : Type) :=
  | Ok (a : A)
  | Raise (e : Exception).
Arguments Ok {A} a.
Arguments Raise {A} e.

Definition rbind {A B} (r : Result A) (k : A -> Result B) : Result B :=
  match r with
  | Ok a => k a
  | Raise e => Raise e
  end.

(** [int(x)] on a float: truncation towards zero. *)
Definition py_int (x : Q) : Z := Z.quot (Qnum x) (Zpos (Qden x)).

(** Rounding to the nearest integer, ties to even. *)
Definition round_half_even (x : Q) : Z :=
  let f := Qfloor x in
  match Qcompare (x - inject_Z f) (1 # 2) with
  | Lt => f
  | Gt => (f + 1)%Z
  | Eq => if Z.even f then f else (f + 1)%Z
  end.

(** Binary floating point, on the rationals the numbers stand for. *)
Module float.
Local Open Scope Q_scope.

(** The exponent of the leading bit of a positive number:
    [2^k <= x < 2^(k+1)]. *)
Definition ilog2 (x : Q) : Z :=
  let k := (Z.log2 (Qnum x) - Z.log2 (Zpos (Qden x)))%Z in
  if Qle_bool (2 ^ k) x then k else (k - 1)%Z.

(** The nearest number with [prec] significant bits, ties to even.
    Below the exponent [emin] the spacing stays [2^emin]: subnormal
    numbers, and zero. *)
Definition round (prec emin : Z) (x : Q) : Q :=
  if Qeq_bool x 0 then 0
  else
    let e := Z.max (ilog2 (Qabs x) - prec + 1) emin in
    Qred (inject_Z (round_half_even (x / 2 ^ e)) * 2 ^ e).

(** Single and double precision; [max32] is the largest finite single,
    and a double is finite below [2^1024]. *)
Definition binary32 : Q -> Q := round 24 (-149).
Definition binary64 : Q -> Q := round 53 (-1074).
Definition max32 : Q := 2 ^ 128 - 2 ^ 104.
Definition finite64 (x : Q) : bool := negb (Qle_bool (2 ^ 1024) (Qabs x)).
End float.

(** [float(x)]: the double nearest to [x].  Python raises
    [OverflowError] for an int beyond the doubles; a literal beyond them
    decodes to an infinity, and [int()] raises the same on it. *)
Definition py_float (x : Q) : Result Q :=
  let v := float.binary64 x in
  if float.finite64 v then Ok v else Raise OverflowError.

(** [x * y] on floats, where [int()] takes the product: the operands as
    doubles, and the double nearest to their product.  An infinite
    product makes [int()] raise [OverflowError]. *)
Definition py_float_mul (x y : Q) : Result Q :=
  rbind (py_float x) (fun a => rbind (py_float y) (fun b => py_float (a * b))).

(** [round(x, ndigits)]. *)
Definition py_round (x : Q) (ndigits : nat) : Q :=
  let s := inject_Z (10 ^ Z.of_nat ndigits) in
  (inject_Z (round_half_even (x * s)) / s)%Q.

(** [len(range(start, stop, step))], as CPython computes it. *)
Definition range_len (start stop step : Z) : Z :=
  if (0 <? step)%Z then
    if (start <? stop)%Z then ((stop - start - 1) / step + 1)%Z else 0%Z
  else if (step <? 0)%Z then
    if (stop <? start)%Z then ((start - stop - 1) / (- step) + 1)%Z else 0%Z
  else 0%Z.

(** [list(range(start, stop, step))]; a zero step raises [ValueError]. *)
Definition py_range (start stop step : Z) : Result (list Z) :=
  if (step =? 0)%Z then Raise ValueError
  else Ok (map (fun i : nat => (start + Z.of_nat i * step)%Z)
               (seq 0 (Z.to_nat (range_len start stop step)))).

(** [x / y] on numbers. *)
Definition py_truediv (x y : Q) : Result Q :=
  if Qeq_bool y 0 then Raise ZeroDivisionError else Ok (x / y)%Q.

(* ================================================================== *)
(** * mathutils: vectors and quaternions *)
(* ================================================================== *)

Record Vector := mkVector { vx : Q; vy : Q; vz : Q }.

(** Components in the order of [mathutils.Quaternion((w, x, y, z))]. *)
Record Quaternion := mkQuaternion { qw : Q; qx : Q; qy : Q; qz : Q }.

Module mathutils.
Local Open Scope Q_scope.

Definition zero : Vector := mkVector 0 0 0.
Definition identity : Quaternion := mkQuaternion 1 0 0 0.

(** [a + b], [a - b] on vectors. *)
Definition add (a b : Vector) : Vector :=
  mkVector (vx a + vx b) (vy a + vy b) (vz a + vz b).
Definition sub (a b : Vector) : Vector :=
  mkVector (vx a - vx b) (vy a - vy b) (vz a - vz b).

(** mathutils keeps the components of a vector as C floats: a component
    and a scalar operand are taken in single precision. *)
Definition single (x : Q) : Q := float.binary32 x.

(** [v *= f]: every component times the factor, rounded to single
    precision. *)
Definition imul (v : Vector) (f : Q) : Vector :=
  let s := single f in
  mkVector (single (single (vx v) * s)) (single (single (vy v) * s))
    (single (single (vz v) * s)).

(** [v /= f]: mathutils raises [ZeroDivisionError] when the divisor is
    zero in single precision, and multiplies every component by the
    single-precision reciprocal of the divisor otherwise. *)
Definition idiv (v : Vector) (f : Q) : Result Vector :=
  let s := single f in
  if Qeq_bool s 0 then Raise ZeroDivisionError
  else
    let r := single (1 / s) in
    Ok (mkVector (single (single (vx v) * r)) (single (single (vy v) * r))
          (single (single (vz v) * r))).

(** [a @ b] on quaternions: the Hamilton product. *)
Definition matmul (a b : Quaternion) : Quaternion :=
  mkQuaternion
    (qw a * qw b - qx a * qx b - qy a * qy b - qz a * qz b)
    (qw a * qx b + qx a * qw b + qy a * qz b - qz a * qy b)
    (qw a * qy b + qy a * qw b + qz a * qx b - qx a * qz b)
    (qw a * qz b + qz a * qw b + qx a * qy b - qy a * qx b).

Definition dot (q : Quaternion) : Q :=
  qw q * qw q + qx q * qx q + qy q * qy q + qz q * qz q.

Definition conjugated (q : Quaternion) : Quaternion :=
  mkQuaternion (qw q) (- qx q) (- qy q) (- qz q).

(** [q.inverted()]: the conjugate over the squared length; the zero
    quaternion is returned as it is. *)
Definition inverted (q : Quaternion) : Quaternion :=
  let f := dot q in
  if Qeq_bool f 0 then q
  else mkQuaternion (qw q / f) (- qx q / f) (- qy q / f) (- qz q / f).

(** [q @ v]: the vector part of [q * (0, v) * conj q]. *)
Definition rotate (q : Quaternion) (v : Vector) : Vector :=
  let t0 := - qx q * vx v - qy q * vy v - qz q * vz v in
  let t1 := qw q * vx v + qy q * vz v - qz q * vy v in
  let t2 := qw q * vy v + qz q * vx v - qx q * vz v in
  let t3 := qw q * vz v + qx q * vy v - qy q * vx v in
  mkVector
    (t0 * - qx q + t1 * qw q - t2 * qz q + t3 * qy q)
    (t0 * - qy q + t2 * qw q - t3 * qx q + t1 * qz q)
    (t0 * - qz q + t3 * qw q - t1 * qy q + t2 * qx q).

(** Equality of values, component by component. *)
Definition veq (a b : Vector) : Prop :=
  vx a == vx b /\ vy a == vy b /\ vz a == vz b.
Definition qeq (a b : Quaternion) : Prop :=
  qw a == qw b /\ qx a == qx b /\ qy a == qy b /\ qz a == qz b.

(** A rotation is a quaternion of length one. *)
Definition is_rotation (q : Quaternion) : Prop := dot q == 1.

(** Two quaternions agree component-wise within [eps]. *)
Definition qclose (eps : Q) (a b : Quaternion) : Prop :=
  Qabs (qw a - qw b) <= eps /\ Qabs (qx a - qx b) <= eps /\
  Qabs (qy a - qy b) <= eps /\ Qabs (qz a - qz b) <= eps.
Definition vclose (eps : Q) (a b : Vector) : Prop :=
  Qabs (vx a - vx b) <= eps /\ Qabs (vy a - vy b) <= eps /\
  Qabs (vz a - vz b) <= eps.

(** [a] is [b] up to rounding: every component of [a] is within the
    relative error [eps] of the one of [b], with the absolute slack
    [eta] for components that underflow. *)
Definition vnear (eps eta : Q) (a b : Vector) : Prop :=
  Qabs (vx a - vx b) <= eps * Qabs (vx b) + eta /\
  Qabs (vy a - vy b) <= eps * Qabs (vy b) + eta /\
  Qabs (vz a - vz b) <= eps * Qabs (vz b) + eta.

(** Every component of [v] is within [bound] in magnitude. *)
Definition vbounded (bound : Q) (v : Vector) : Prop :=
  Qabs (vx v) <= bound /\ Qabs (vy v) <= bound /\ Qabs (vz v) <= bound.
End mathutils.

(** The [coordinate_system] enum of both operators. *)
Inductive CoordinateSystem := BLENDER | WEBXR.

#[global] Instance CoordinateSystem_eq_dec : EqDecision CoordinateSystem.
Proof. solve_decision. Defined.

(* ================================================================== *)
(** * Decoded JSON, as [json.load] returns it *)
(* ================================================================== *)

(** A [dict] is kept as the list of its items; keys are distinct in a
    decoded object and [assoc] reads the first match.  A number is kept
    as the rational written in the document; where the code multiplies
    it as a float, [py_float] takes the double it decodes to. *)
Inductive json :=
  | JNull
  | JBool (b : bool)
  | JNum (x : Q)
  | JStr (s : string)
  | JArr (items : list json)
  | JObj (items : list (string * json)).

Module py.
(** The value under a key of a [dict]. *)
Fixpoint assoc (k : string) (m : list (string * json)) : option json :=
  match m with
  | [] => None
  | (k', v) :: m' => if String.eqb k k' then Some v else assoc k m'
  end.

(** [k in j] for a string [k]. *)
Definition contains (k : string) (j : json) : Result bool :=
  match j with
  | JObj m => Ok (match assoc k m with Some _ => true | None => false end)
  | JArr l =>
      Ok (existsb (fun x => match x with JStr s => String.eqb s k | _ => false end) l)
  | JStr s => Ok (match String.index 0 k s with Some _ => true | None => false end)
  | _ => Raise TypeError
  end.

(** [j[k]] for a string [k]. *)
Definition getitem (j : json) (k : string) : Result json :=
  match j with
  | JObj m =>
    match assoc k m with
    | Some v => Ok v
    | None => Raise (KeyError ("'" +:+ k +:+ "'"))
    end
  | _ => Raise TypeError
  end.

(** [j[i]] for a non-negative index [i]. *)
Definition index (j : json) (i : nat) : Result json :=
  match j with
  | JArr l => match nth_error l i with Some v => Ok v | None => Raise IndexError end
  | JStr s =>
      match String.get i s with
      | Some c => Ok (JStr (String c EmptyString))
      | None => Raise IndexError
      end
  | JObj _ => Raise (KeyError (pretty i))
  | _ => Raise TypeError
  end.

(** [bool(j)]. *)
Definition truthy (j : json) : bool :=
  match j with
  | JNull => false
  | JBool b => b
  | JNum x => negb (Qeq_bool x 0)
  | JStr s => negb (String.eqb s "")
  | JArr l => match l with [] => false | _ => true end
  | JObj m => match m with [] => false | _ => true end
  end.

(** The value as a float, where Python accepts it as a number. *)
Definition as_float (j : json) : Result Q :=
  match j with
  | JNum x => Ok x
  | JBool b => Ok (if b then 1%Q else 0%Q)
  | _ => Raise TypeError
  end.

(** [isinstance(j, list)]. *)
Definition isinstance_list (j : json) : bool :=
  match j with JArr _ => true | _ => false end.

(** The elements of a list value. *)
Definition items (j : json) : list json :=
  match j with JArr l => l | _ => [] end.
End py.

(* ================================================================== *)
(** * The host: scene, objects and keyframe tracks *)
(* ================================================================== *)

Inductive RotationMode :=
  QUATERNION | XYZ | XZY | YXZ | YZX | ZXY | ZYX | AXIS_ANGLE.

#[global] Instance RotationMode_eq_dec : EqDecision RotationMode.
Proof. solve_decision. Defined.

(** [rotation_euler]: three angles and the axis order. *)
Record Euler := mkEuler { ex : Q; ey : Q; ez : Q; order : string }.

Inductive Interpolation := CONSTANT | LINEAR | BEZIER.
Inductive HandleType := FREE | ALIGNED | VECTOR | AUTO | AUTO_CLAMPED.

(** One keyframe point of a channel; the frame it sits on is its key in
    the channel's track. *)
Record Keyframe (V : Type) := mkKeyframe {
  co : V;
  interpolation : Interpolation;
  handle_left_type : HandleType;
  handle_right_type : HandleType }.
Arguments mkKeyframe {V} _ _ _ _.
Arguments co {V} _.
Arguments interpolation {V} _.
Arguments handle_left_type {V} _.
Arguments handle_right_type {V} _.

(** An action with the two channels the operators touch.  A track maps
    a frame index to the keyframe on it: inserting on an occupied frame
    replaces the keyframe. *)
Record Action := mkAction {
  action_name : string;
  location_track : gmap Z (Keyframe Vector);
  rotation_track : gmap Z (Keyframe Quaternion) }.

(** [obj.animation_data]: present or not, with or without an action. *)
Record AnimData := mkAnimData { action : option Action }.

Inductive ObjectType := CAMERA | MESH | EMPTY | LIGHT.

Record Object := mkObject {
  name : string;
  type : ObjectType;
  location : Vector;
  rotation_mode : RotationMode;
  rotation_quaternion : Quaternion;
  rotation_euler : Euler;
  animation_data : option AnimData;
  id_props : gmap string json;
  selected : bool }.

Inductive Report :=
  | ERROR (msg : string)
  | INFO (msg : string).

(** The host state.  Objects are referred to by their position in
    [objects]; [scene_camera] is [context.scene.camera]. *)
Record Host := mkHost {
  objects : list Object;
  scene_camera : option nat;
  active_object : option nat;
  collection : list nat;
  frame_start : Z;
  frame_end : Z;
  frame_current : Z;
  fps : Z;
  new_key_interpolation : Interpolation;
  new_key_handle : HandleType;
  app_version : list Z;
  reports : list Report }.

Inductive Outcome := FINISHED | CANCELLED.

(** ** Field updates *)

Definition with_location (v : Vector) (o : Object) : Object :=
  mkObject (name o) (type o) v (rotation_mode o) (rotation_quaternion o)
    (rotation_euler o) (animation_data o) (id_props o) (selected o).
Definition with_rotation_mode (m : RotationMode) (o : Object) : Object :=
  mkObject (name o) (type o) (location o) m (rotation_quaternion o)
    (rotation_euler o) (animation_data o) (id_props o) (selected o).
Definition with_rotation_quaternion (q : Quaternion) (o : Object) : Object :=
  mkObject (name o) (type o) (location o) (rotation_mode o) q
    (rotation_euler o) (animation_data o) (id_props o) (selected o).
Definition with_animation_data (a : option AnimData) (o : Object) : Object :=
  mkObject (name o) (type o) (location o) (rotation_mode o) (rotation_quaternion o)
    (rotation_euler o) a (id_props o) (selected o).
Definition with_id_prop (k : string) (v : json) (o : Object) : Object :=
  mkObject (name o) (type o) (location o) (rotation_mode o) (rotation_quaternion o)
    (rotation_euler o) (animation_data o) (<[k := v]> (id_props o)) (selected o).
Definition with_selected (b : bool) (o : Object) : Object :=
  mkObject (name o) (type o) (location o) (rotation_mode o) (rotation_quaternion o)
    (rotation_euler o) (animation_data o) (id_props o) b.

Definition with_objects (l : list Object) (h : Host) : Host :=
  mkHost l (scene_camera h) (active_object h) (collection h) (frame_start h)
    (frame_end h) (frame_current h) (fps h) (new_key_interpolation h)
    (new_key_handle h) (app_version h) (reports h).
Definition with_scene_camera (c : option nat) (h : Host) : Host :=
  mkHost (objects h) c (active_object h) (collection h) (frame_start h)
    (frame_end h) (frame_current h) (fps h) (new_key_interpolation h)
    (new_key_handle h) (app_version h) (reports h).
Definition with_active_object (c : option nat) (h : Host) : Host :=
  mkHost (objects h) (scene_camera h) c (collection h) (frame_start h)
    (frame_end h) (frame_current h) (fps h) (new_key_interpolation h)
    (new_key_handle h) (app_version h) (reports h).
Definition with_collection (c : list nat) (h : Host) : Host :=
  mkHost (objects h) (scene_camera h) (active_object h) c (frame_start h)
    (frame_end h) (frame_current h) (fps h) (new_key_interpolation h)
    (new_key_handle h) (app_version h) (reports h).
Definition with_frame_start (n : Z) (h : Host) : Host :=
  mkHost (objects h) (scene_camera h) (active_object h) (collection h) n
    (frame_end h) (frame_current h) (fps h) (new_key_interpolation h)
    (new_key_handle h) (app_version h) (reports h).
Definition with_frame_end (n : Z) (h : Host) : Host :=
  mkHost (objects h) (scene_camera h) (active_object h) (collection h) (frame_start h)
    n (frame_current h) (fps h) (new_key_interpolation h)
    (new_key_handle h) (app_version h) (reports h).
Definition with_frame_current (n : Z) (h : Host) : Host :=
  mkHost (objects h) (scene_camera h) (active_object h) (collection h) (frame_start h)
    (frame_end h) n (fps h) (new_key_interpolation h)
    (new_key_handle h) (app_version h) (reports h).
Definition with_fps (n : Z) (h : Host) : Host :=
  mkHost (objects h) (scene_camera h) (active_object h) (collection h) (frame_start h)
    (frame_end h) (frame_current h) n (new_key_interpolation h)
    (new_key_handle h) (app_version h) (reports h).
Definition with_reports (r : list Report) (h : Host) : Host :=
  mkHost (objects h) (scene_camera h) (active_object h) (collection h) (frame_start h)
    (frame_end h) (frame_current h) (fps h) (new_key_interpolation h)
    (new_key_handle h) (app_version h) r.

(* ================================================================== *)
(** * Operator code: state over the host, with exceptions *)
(* ================================================================== *)

(** A computation reads and changes the host and either returns or
    raises; the host state it leaves is kept in both cases. *)
Definition M (A : Type) : Type := Host -> Host * Result A.

Definition ret {A} (a : A) : M A := fun h => (h, Ok a).
Definition raise {A} (e : Exception) : M A := fun h => (h, Raise e).
Definition bind {A B} (m : M A) (k : A -> M B) : M B :=
  fun h =>
    match m h with
    | (h', Ok a) => k a h'
    | (h', Raise e) => (h', Raise e)
    end.

Declare Scope op_scope.
Delimit Scope op_scope with op.
Notation "x <- m ;; k" := (bind m (fun x => k))
  (at level 100, m at next level, right associativity) : op_scope.
Notation "m ;; k" := (bind m (fun _ => k))
  (at level 100, right associativity) : op_scope.
Open Scope op_scope.

(** A pure Python expression that may raise. *)
Definition lift {A} (r : Result A) : M A := fun h => (h, r).

Definition gets {A} (f : Host -> A) : M A := fun h => (h, Ok (f h)).
Definition modify (f : Host -> Host) : M unit := fun h => (f h, Ok tt).

(** [try: body  except Exception as e: handler(e)]. *)
Definition try_except {A} (body : M A) (handler : Exception -> M A) : M A :=
  fun h =>
    match body h with
    | (h', Ok a) => (h', Ok a)
    | (h', Raise e) => handler e h'
    end.

(** [for x in l: body(x)]. *)
Fixpoint for_each {A} (l : list A) (body : A -> M unit) : M unit :=
  match l with
  | [] => ret tt
  | x :: l' => body x ;; for_each l' body
  end.

(** [self.report({level}, msg)]. *)
Definition report (r : Report) : M unit :=
  modify (fun h => with_reports (reports h ++ [r]) h).

Module bpy.
(** Reading an object through its reference. *)
Definition get_object (i : nat) : M Object :=
  fun h =>
    match objects h !! i with
    | Some o => (h, Ok o)
    | None => (h, Raise (HostError "StructRNA of type Object has been removed"))
    end.

(** Writing a field of an object through its reference. *)
Definition update_object (i : nat) (f : Object -> Object) : M unit :=
  o <- get_object i ;;
  modify (fun h => with_objects (<[i := f o]> (objects h)) h).

(** [bpy.data.cameras.new] with [bpy.data.objects.new]: a fresh camera
    object with default transform, appended to the object table. *)
Definition new_camera (nm : string) : M nat :=
  fun h =>
    let o := mkObject nm CAMERA mathutils.zero XYZ mathutils.identity
               (mkEuler 0 0 0 "XYZ") None ∅ false in
    (with_objects (objects h ++ [o]) h, Ok (length (objects h))).

(** The action that receives a keyframe: the object's own, or a new one
    when it has none. *)
Definition the_action (o : Object) : Action :=
  match animation_data o with
  | Some (mkAnimData (Some a)) => a
  | _ => mkAction (name o +:+ "Action") ∅ ∅
  end.

(** [obj.keyframe_insert(data_path="location", frame=n)]: the current
    value is keyed at [n]. *)
Definition keyframe_insert_location (i : nat) (n : Z) : M unit :=
  ki <- gets new_key_interpolation ;;
  kh <- gets new_key_handle ;;
  update_object i (fun o =>
    let a := the_action o in
    with_animation_data
      (Some (mkAnimData (Some
         (mkAction (action_name a)
            (<[n := mkKeyframe (location o) ki kh kh]> (location_track a))
            (rotation_track a))))) o).

(** [obj.keyframe_insert(data_path="rotation_quaternion", frame=n)]. *)
Definition keyframe_insert_rotation_quaternion (i : nat) (n : Z) : M unit :=
  ki <- gets new_key_interpolation ;;
  kh <- gets new_key_handle ;;
  update_object i (fun o =>
    let a := the_action o in
    with_animation_data
      (Some (mkAnimData (Some
         (mkAction (action_name a)
            (location_track a)
            (<[n := mkKeyframe (rotation_quaternion o) ki kh kh]> (rotation_track a)))))) o).

(** An evaluated channel value overwrites the property it animates. *)
Definition apply_pose (l : option Vector) (r : option Quaternion) (o : Object)
  : Object :=
  mkObject (name o) (type o) (default (location o) l) (rotation_mode o)
    (default (rotation_quaternion o) r) (rotation_euler o) (animation_data o)
    (id_props o) (selected o).

Section Playback.
(** The host's animation system: the value of each animated channel
    of an action at a frame ([None] for a channel it leaves alone),
    or an error raised while the frame is evaluated. *)
Variable evaluate : Action -> Z -> Result (option Vector * option Quaternion).

Definition evaluate_object (n : Z) (o : Object) : Result Object :=
  match animation_data o with
  | Some (mkAnimData (Some a)) =>
      match evaluate a n with
      | Ok v => Ok (apply_pose (fst v) (snd v) o)
      | Raise e => Raise e
      end
  | _ => Ok o
  end.

Fixpoint evaluate_objects (n : Z) (l : list Object) : Result (list Object) :=
  match l with
  | [] => Ok []
  | o :: l' =>
      match evaluate_object n o with
      | Ok o' =>
          match evaluate_objects n l' with
          | Ok r => Ok (o' :: r)
          | Raise e => Raise e
          end
      | Raise e => Raise e
      end
  end.

(** [scene.frame_set(n)]: the playback position moves to [n] and
    every animated object takes its value there. *)
Definition frame_set (n : Z) : M unit :=
  fun h =>
    let h1 := with_frame_current n h in
    match evaluate_objects n (objects h1) with
    | Ok objs => (with_objects objs h1, Ok tt)
    | Raise e => (h1, Raise e)
    end.
End Playback.
End bpy.

(** Sequencing of pure expressions that may raise. *)
Notation "x <~ r ;; k" := (rbind r (fun x => k))
  (at level 100, r at next level, right associativity) : op_scope.

Module pathlib.
Fixpoint rfind_from (c : Ascii.ascii) (s : string) (i : nat) (acc : option nat)
  : option nat :=
  match s with
  | EmptyString => acc
  | String x s' => rfind_from c s' (S i) (if Ascii.eqb x c then Some i else acc)
  end.
Definition rfind (c : Ascii.ascii) (s : string) : option nat := rfind_from c s 0 None.

(** [Path(p).name]: what follows the last separator. *)
Definition name (p : string) : string :=
  match rfind "/"%char p with
  | Some i => String.substring (S i) (String.length p - S i) p
  | None => p
  end.

(** [Path(p).stem]: the name without its last suffix. *)
Definition stem (p : string) : string :=
  let n := name p in
  match rfind "."%char n with
  | Some i =>
      if ((0 <? i)%nat && (i <? String.length n - 1)%nat)%bool
      then String.substring 0 i n else n
  | None => n
  end.
End pathlib.

(* ================================================================== *)
(** * WebXRCameraAnimationImporter *)
(* ================================================================== *)

Module Importer.
Import mathutils.

(** The operator's properties. *)
Record Props := mkProps {
  filepath : string;
  create_camera : bool;
  use_existing_camera : bool;
  scale_factor : Q;
  coordinate_system : CoordinateSystem;
  apply_deltas : bool;
  frame_rate : Q }.

(** The declared defaults. *)
Definition defaults (path : string) : Props :=
  mkProps path true false 1 BLENDER false 30.

(** [Quaternion((d['q'][3], d['q'][0], d['q'][1], d['q'][2]))]:
    x, y, z, w on the wire, w first in the host. *)
Definition parse_quaternion (d : json) : Result Quaternion :=
  a <~ py.getitem d "q" ;; w <~ py.index a 3 ;;
  a <~ py.getitem d "q" ;; x <~ py.index a 0 ;;
  a <~ py.getitem d "q" ;; y <~ py.index a 1 ;;
  a <~ py.getitem d "q" ;; z <~ py.index a 2 ;;
  w <~ py.as_float w ;; x <~ py.as_float x ;;
  y <~ py.as_float y ;; z <~ py.as_float z ;;
  Ok (mkQuaternion w x y z).

(** [Vector((d['p'][0], d['p'][1], d['p'][2]))]. *)
Definition parse_vector (d : json) : Result Vector :=
  a <~ py.getitem d "p" ;; x <~ py.index a 0 ;;
  a <~ py.getitem d "p" ;; y <~ py.index a 1 ;;
  a <~ py.getitem d "p" ;; z <~ py.index a 2 ;;
  x <~ py.as_float x ;; y <~ py.as_float y ;; z <~ py.as_float z ;;
  Ok (mkVector x y z).

(** The first frame's position: read when the key is there. *)
Definition parse_p0 (first_frame : json) : Result Vector :=
  has <~ py.contains "p" first_frame ;;
  if has then parse_vector first_frame else Ok zero.

(** A frame's position: read when the key is there and its value is
    truthy, the origin otherwise. *)
Definition parse_p (frame_data : json) : Result Vector :=
  has <~ py.contains "p" frame_data ;;
  if has then
    v <~ py.getitem frame_data "p" ;;
    if py.truthy v then parse_vector frame_data else Ok zero
  else Ok zero.

Section Operator.
(** [rotation_euler.to_quaternion()], a host function. *)
Variable to_quaternion : Euler -> Quaternion.
Variable evaluate : Action -> Z -> Result (option Vector * option Quaternion).
Variable self : Props.

Definition _get_or_create_camera : M (option nat) :=
  cam <- gets scene_camera ;;
  if (use_existing_camera self && bool_decide (is_Some cam))%bool then ret cam
  else if (create_camera self || negb (bool_decide (is_Some cam)))%bool then
    camera_obj <- bpy.new_camera "WebXR_Camera" ;;
    modify (fun h => with_collection (collection h ++ [camera_obj]) h) ;;
    modify (with_scene_camera (Some camera_obj)) ;;
    ret (Some camera_obj)
  else ret None.

(** The coordinate conversion of one frame: [(p_converted, q_converted)]. *)
Definition converted (p : Vector) (q : Quaternion) : Vector * Quaternion :=
  match coordinate_system self with
  | BLENDER =>
      let p_converted := mkVector (vx p) (- vz p) (vy p) in
      let basis_rotation := mkQuaternion 0.7071068 0.7071068 0 0 in
      (p_converted, matmul basis_rotation q)
  | WEBXR => (p, q)
  end.

(** Conversion and scale: the pose before any delta is applied. *)
Definition scaled (p : Vector) (q : Quaternion) : Vector * Quaternion :=
  let '(p_converted, q_converted) := converted p q in
  (imul p_converted (scale_factor self), q_converted).

(** The delta step on a converted and scaled pose. *)
Definition rebased (initial_pos : Vector) (initial_rot q0 : Quaternion) (p0 : Vector)
    (p_converted : Vector) (q_converted : Quaternion) : Vector * Quaternion :=
  let q_delta := matmul (inverted q0) q_converted in
  let q_final := matmul initial_rot q_delta in
  let p_delta := sub p_converted p0 in
  let p_delta_rotated :=
    match coordinate_system self with
    | BLENDER => rotate initial_rot p_delta
    | WEBXR => p_delta
    end in
  (add initial_pos p_delta_rotated, q_final).

(** [(p_final, q_final)] of one frame. *)
Definition final (initial_pos : Vector) (initial_rot q0 : Quaternion) (p0 : Vector)
    (p : Vector) (q : Quaternion) : Vector * Quaternion :=
  let '(p_converted, q_converted) := scaled p q in
  if apply_deltas self
  then rebased initial_pos initial_rot q0 p0 p_converted q_converted
  else (p_converted, q_converted).

(** [int(time * self.frame_rate) + 1]. *)
Definition frame_number (time : Q) : Result Z :=
  v <~ py_float_mul time (frame_rate self) ;; Ok (py_int v + 1)%Z.

(** The body of the loop over the frames. *)
Definition import_frame (camera : nat) (initial_pos : Vector)
    (initial_rot q0 : Quaternion) (p0 : Vector) (frame_data : json) : M unit :=
  time <- lift (t <~ py.getitem frame_data "t" ;; py.as_float t) ;;
  frame_number <- lift (frame_number time) ;;
  q <- lift (parse_quaternion frame_data) ;;
  p <- lift (parse_p frame_data) ;;
  let '(p_final, q_final) := final initial_pos initial_rot q0 p0 p q in
  bpy.frame_set evaluate frame_number ;;
  bpy.update_object camera (with_location p_final) ;;
  bpy.update_object camera (with_rotation_quaternion q_final) ;;
  bpy.keyframe_insert_location camera frame_number ;;
  bpy.keyframe_insert_rotation_quaternion camera frame_number.

Definition smooth {V} (k : Keyframe V) : Keyframe V :=
  mkKeyframe (co k) BEZIER AUTO_CLAMPED AUTO_CLAMPED.

(** Every keyframe of the action gets Bezier interpolation with
    auto-clamped handles. *)
Definition set_interpolation (o : Object) : Object :=
  match animation_data o with
  | Some (mkAnimData (Some a)) =>
      with_animation_data
        (Some (mkAnimData (Some
           (mkAction (action_name a) (smooth <$> location_track a)
              (smooth <$> rotation_track a))))) o
  | _ => o
  end.

Definition _import_animation (camera : nat) (frames : list json) (metadata : json)
  : M unit :=
  duration_value <- lift
    (match last frames with
     | Some f => py.getitem f "t"
     | None => Raise IndexError
     end) ;;
  duration <- lift (py.as_float duration_value) ;;
  total_frames <- lift
    (v <~ py_float_mul duration (frame_rate self) ;; Ok (py_int v)) ;;
  modify (with_frame_start 1) ;;
  modify (with_frame_end (Z.max total_frames 1)) ;;
  modify (with_fps (py_int (frame_rate self))) ;;
  initial <-
    (if apply_deltas self then
       o <- bpy.get_object camera ;;
       ret (location o,
            if decide (rotation_mode o = QUATERNION) then rotation_quaternion o
            else to_quaternion (rotation_euler o))
     else ret (zero, identity)) ;;
  let '(initial_pos, initial_rot) := initial in
  bpy.update_object camera (with_rotation_mode QUATERNION) ;;
  bpy.update_object camera
    (fun o => match animation_data o with
              | Some _ => with_animation_data None o
              | None => o
              end) ;;
  let action_name := "WebXR_Anim_" +:+ pathlib.stem (filepath self) in
  bpy.update_object camera
    (with_animation_data (Some (mkAnimData (Some (mkAction action_name ∅ ∅))))) ;;
  first_frame <- lift
    (match frames with f :: _ => Ok f | [] => Raise IndexError end) ;;
  q0 <- lift (parse_quaternion first_frame) ;;
  p0 <- lift (parse_p0 first_frame) ;;
  for_each frames (import_frame camera initial_pos initial_rot q0 p0) ;;
  bpy.update_object camera set_interpolation ;;
  bpy.frame_set evaluate 1 ;;
  bpy.update_object camera
    (with_id_prop "webxr_animation_source" (JStr (pathlib.name (filepath self)))) ;;
  bpy.update_object camera (with_id_prop "webxr_animation_duration" duration_value) ;;
  bpy.update_object camera
    (with_id_prop "webxr_animation_frames"
       (JNum (inject_Z (Z.of_nat (length frames))))) ;;
  has <- lift (py.contains "referenceSpaceType" metadata) ;;
  if has then
    v <- lift (py.getitem metadata "referenceSpaceType") ;;
    bpy.update_object camera (with_id_prop "webxr_reference_space" v)
  else ret tt.

(** The three error reports of [execute] that do not come from an
    exception. *)
Definition MISSING_FRAMES : string := "Invalid JSON: missing 'frames' array".
Definition EMPTY_FRAMES : string := "No frames found in animation data".
Definition TARGET_UNAVAILABLE : string := "Failed to get or create camera".

(** [execute]: [file] is what opening and decoding [self.filepath]
    gives, a decoded value or the exception raised on the way. *)
Definition execute (file : Result json) : M Outcome :=
  try_except
    (data <- lift file ;;
     has <- lift (py.contains "frames" data) ;;
     is_list <-
       (if has then
          v <- lift (py.getitem data "frames") ;; ret (py.isinstance_list v)
        else ret false) ;;
     if negb is_list then
       report (ERROR MISSING_FRAMES) ;; ret CANCELLED
     else
       frames <- lift (v <~ py.getitem data "frames" ;; Ok (py.items v)) ;;
       if (length frames =? 0)%nat then
         report (ERROR EMPTY_FRAMES) ;; ret CANCELLED
       else
         camera <- _get_or_create_camera ;;
         match camera with
         | None => report (ERROR TARGET_UNAVAILABLE) ;; ret CANCELLED
         | Some camera =>
             _import_animation camera frames data ;;
             modify (with_active_object (Some camera)) ;;
             bpy.update_object camera (with_selected true) ;;
             let filename := pathlib.stem (filepath self) in
             report (INFO ("Imported " +:+ pretty (length frames) +:+
                           " frames from '" +:+ filename +:+ "'")) ;;
             ret FINISHED
         end)
    (fun e => report (ERROR ("Import failed: " +:+ exc_str e)) ;; ret CANCELLED).
End Operator.
End Importer.

(* ================================================================== *)
(** * WebXRCameraAnimationExporter *)
(* ================================================================== *)

Module Exporter.
Import mathutils.

Inductive SampleMode := KEYFRAMES | ALL_FRAMES | CUSTOM_RATE.

(** The operator's properties. *)
Record Props := mkProps {
  filepath : string;
  export_active_camera : bool;
  scale_factor : Q;
  coordinate_system : CoordinateSystem;
  sample_mode : SampleMode;
  custom_sample_rate : Z;
  export_position : bool;
  reference_space_type : string }.

(** The declared defaults. *)
Definition defaults (path : string) : Props :=
  mkProps path true 1 WEBXR ALL_FRAMES 1 true "local-floor".

(** [".".join(map(str, version))]. *)
Fixpoint join_version (l : list Z) : string :=
  match l with
  | [] => ""
  | [x] => pretty x
  | x :: l' => pretty x +:+ "." +:+ join_version l'
  end.

Definition NO_CAMERA : string := "No camera found to export".
Definition NO_ANIMATION : string := "Camera has no animation data".

Section Operator.
Variable evaluate : Action -> Z -> Result (option Vector * option Quaternion).
Variable self : Props.

Definition _get_camera : M (option nat) :=
  if export_active_camera self then gets scene_camera
  else
    objs <- gets objects ;;
    let selected :=
      List.filter
        (fun i => match objs !! i with
                  | Some o =>
                      (selected o &&
                       match type o with CAMERA => true | _ => false end)%bool
                  | None => false
                  end) (seq 0 (length objs)) in
    ret (head selected).

(** The inverse coordinate conversion of one sampled pose. *)
Definition converted (p : Vector) (q : Quaternion) : Vector * Quaternion :=
  match coordinate_system self with
  | WEBXR =>
      let p_converted := mkVector (vx p) (vz p) (- vy p) in
      let basis_rotation_inv := mkQuaternion 0.7071068 (-0.7071068) 0 0 in
      (p_converted, matmul basis_rotation_inv q)
  | BLENDER => (p, q)
  end.

(** The scale step of one sampled pose: [p_converted /= self.scale_factor]. *)
Definition scaled (p_converted : Vector) : Result Vector :=
  idiv p_converted (scale_factor self).

(** Keyframes sit on whole frames in a track, so [int(keyframe.co.x)] is
    the key itself. *)
Definition _get_frames_to_sample (camera : nat) : M (list Z) :=
  match sample_mode self with
  | KEYFRAMES =>
      o <- bpy.get_object camera ;;
      let keyframe_numbers : gset Z :=
        match animation_data o with
        | Some (mkAnimData (Some a)) =>
            dom (location_track a) ∪ dom (rotation_track a)
        | _ => ∅
        end in
      ret (merge_sort Z.le (elements keyframe_numbers))
  | CUSTOM_RATE =>
      frame_start <- gets frame_start ;;
      frame_end <- gets frame_end ;;
      lift (py_range frame_start (frame_end + 1) (custom_sample_rate self))
  | ALL_FRAMES =>
      frame_start <- gets frame_start ;;
      frame_end <- gets frame_end ;;
      lift (py_range frame_start (frame_end + 1) 1)
  end.

(** The record emitted for one sampled frame. *)
Definition frame_record (time : Q) (p_converted : Vector) (q_converted : Quaternion)
  : json :=
  let base :=
    [("t", JNum (py_round time 4));
     ("q", JArr [JNum (py_round (qx q_converted) 6);
                 JNum (py_round (qy q_converted) 6);
                 JNum (py_round (qz q_converted) 6);
                 JNum (py_round (qw q_converted) 6)])] in
  if export_position self then
    JObj (base ++
          [("p", JArr [JNum (py_round (vx p_converted) 6);
                       JNum (py_round (vy p_converted) 6);
                       JNum (py_round (vz p_converted) 6)])])
  else JObj base.

(** The body of the sampling loop. *)
Definition export_frame (camera : nat) (fps : Z) (frame_num : Z) : M json :=
  bpy.frame_set evaluate frame_num ;;
  frame_start <- gets frame_start ;;
  time <- lift (py_truediv (inject_Z (frame_num - frame_start)) (inject_Z fps)) ;;
  o <- bpy.get_object camera ;;
  let q := rotation_quaternion o in
  let p := location o in
  let '(p_converted, q_converted) := converted p q in
  p_converted <- lift (scaled p_converted) ;;
  ret (frame_record time p_converted q_converted).

(** The sampling loop: [exported_frames] grows by one record a frame. *)
Fixpoint export_frames (camera : nat) (fps : Z) (frames_to_sample : list Z)
    (exported_frames : list json) : M (list json) :=
  match frames_to_sample with
  | [] => ret exported_frames
  | frame_num :: rest =>
      frame_data <- export_frame camera fps frame_num ;;
      export_frames camera fps rest (exported_frames ++ [frame_data])
  end.

Definition _export_animation (camera : nat) : M json :=
  frames_to_sample <- _get_frames_to_sample camera ;;
  original_frame <- gets frame_current ;;
  o <- bpy.get_object camera ;;
  let original_rotation_mode := rotation_mode o in
  let needs_quaternion_conversion :=
    negb (bool_decide (rotation_mode o = QUATERNION)) in
  (if needs_quaternion_conversion
   then bpy.update_object camera (with_rotation_mode QUATERNION)
   else ret tt) ;;
  fps <- gets fps ;;
  exported_frames <- export_frames camera fps frames_to_sample [] ;;
  bpy.frame_set evaluate original_frame ;;
  (if needs_quaternion_conversion
   then bpy.update_object camera (with_rotation_mode original_rotation_mode)
   else ret tt) ;;
  o <- bpy.get_object camera ;;
  version <- gets app_version ;;
  frame_start <- gets frame_start ;;
  frame_end <- gets frame_end ;;
  let metadata :=
    [("exportedFrom", JStr "Blender");
     ("blenderVersion", JStr (join_version version));
     ("cameraName", JStr (name o));
     ("fps", JNum (inject_Z fps));
     ("frameRange", JArr [JNum (inject_Z frame_start); JNum (inject_Z frame_end)])] in
  let metadata :=
    match id_props o !! "webxr_animation_source" with
    | Some src => metadata ++ [("originalSource", src)]
    | None => metadata
    end in
  ret (JObj [("frames", JArr exported_frames);
             ("referenceSpaceType", JStr (reference_space_type self));
             ("metadata", JObj metadata)]).

(** [execute]: [write] is what opening [self.filepath] for writing and
    dumping the document gives.  The document written is returned
    with the outcome. *)
Definition execute (write : json -> Result unit) : M (Outcome * option json) :=
  try_except
    (camera <- _get_camera ;;
     match camera with
     | None => report (ERROR NO_CAMERA) ;; ret (CANCELLED, None)
     | Some camera =>
         o <- bpy.get_object camera ;;
         match animation_data o with
         | Some (mkAnimData (Some _)) =>
             animation_data <- _export_animation camera ;;
             lift (write animation_data) ;;
             let filename := pathlib.name (filepath self) in
             frame_count <- lift
               (v <~ py.getitem animation_data "frames" ;; Ok (length (py.items v))) ;;
             report (INFO ("Exported " +:+ pretty frame_count +:+
                           " frames to '" +:+ filename +:+ "'")) ;;
             ret (FINISHED, Some animation_data)
         | _ => report (ERROR NO_ANIMATION) ;; ret (CANCELLED, None)
         end
     end)
    (fun e => report (ERROR ("Export failed: " +:+ exc_str e)) ;;
              ret (CANCELLED, None)).
End Operator.
End Exporter.

(* ================================================================== *)
(** * Vocabulary of the statements *)
(* ================================================================== *)

(** The coordinate conversion of the importer followed by the one of the
    exporter, on one pose. *)
Definition round_trip (imp : Importer.Props) (exp : Exporter.Props)
    (p : Vector) (q : Quaternion) : Vector * Quaternion :=
  let '(p1, q1) := Importer.converted imp p q in
  Exporter.converted exp p1 q1.

(** The wire record of one frame. *)
Definition wire_frame (t : json) (q : json) (p : list Q) : json :=
  JObj [("t", t); ("q", q); ("p", JArr (map JNum p))].

(** The wire form of the identity rotation, [x, y, z, w]. *)
Definition identity_q : json := JArr [JNum 0; JNum 0; JNum 0; JNum 1].

(** Two frames one second apart, the second one metre along X. *)
Definition two_frames : list json :=
  [wire_frame (JNum 0) identity_q [0; 0; 0]%Q;
   wire_frame (JNum 1) identity_q [1; 0; 0]%Q].

(** The document that holds them. *)
Definition two_frame_clip : json := JObj [("frames", JArr two_frames)].

(** A clip of two frames, the second at time [t]. *)
Definition clip_ending_at (t : Q) : json :=
  JObj [("frames",
         JArr [wire_frame (JNum 0) identity_q [0; 0; 0]%Q;
               wire_frame (JNum t) identity_q [1; 0; 0]%Q])].

(** A clip of one frame at time zero, without a position. *)
Definition single_frame_clip : json :=
  JObj [("frames", JArr [JObj [("t", JNum 0); ("q", identity_q)]])].

(** The timestamp of the last frame, as [_import_animation] reads it. *)
Definition clip_duration (frames : list json) : Result Q :=
  match last frames with
  | Some f => t <~ py.getitem f "t" ;; py.as_float t
  | None => Raise IndexError
  end.

(** The expression returns. *)
Definition is_ok {A} (r : Result A) : bool :=
  match r with Ok _ => true | Raise _ => false end.

(** A frame record the import loop reads without an error: a time with
    a finite frame index, a rotation and, where there is one, a
    position. *)
Definition readable (self : Importer.Props) (frame_data : json) : bool :=
  is_ok (t <~ py.getitem frame_data "t" ;; time <~ py.as_float t ;;
         Importer.frame_number self time) &&
  is_ok (Importer.parse_quaternion frame_data) &&
  is_ok (Importer.parse_p frame_data).

(** A clip the importer reads without an error: at least one frame,
    every frame readable and, where the first frame has a position, a
    vector there. *)
Definition readable_clip (self : Importer.Props) (frames : list json) : bool :=
  forallb (readable self) frames &&
  match frames with
  | first :: _ => is_ok (Importer.parse_p0 first)
  | [] => false
  end.

(** The scene frame range. *)
Definition range_of (h : Host) : Z * Z := (frame_start h, frame_end h).

(** The document has a [frames] entry that is a list. *)
Definition has_frames_array (data : json) : Prop :=
  exists frames, py.getitem data "frames" = Ok (JArr frames).

(** The document is a JSON object. *)
Definition is_object (data : json) : Prop := exists items, data = JObj items.

(** The run is cancelled with the one error report [msg] and the host is
    otherwise left as it was. *)
Definition cancelled_with (msg : string) (h : Host) (run : Host * Result Outcome) : Prop :=
  run = (with_reports (reports h ++ [ERROR msg]) h, Ok CANCELLED).

(** The conditions under which no camera is resolved. *)
Definition no_target (self : Importer.Props) (h : Host) : Prop :=
  Importer.create_camera self = false /\
  is_Some (scene_camera h) /\
  Importer.use_existing_camera self = false.

(** A host whose animation system never raises: [ev] gives the channel
    values. *)
Definition total (ev : Action -> Z -> option Vector * option Quaternion)
  : Action -> Z -> Result (option Vector * option Quaternion) :=
  fun a n => Ok (ev a n).

(** What [frame_set n] does to one object under such a host. *)
Definition evaluated (ev : Action -> Z -> option Vector * option Quaternion)
    (n : Z) (o : Object) : Object :=
  match animation_data o with
  | Some (mkAnimData (Some a)) => bpy.apply_pose (fst (ev a n)) (snd (ev a n)) o
  | _ => o
  end.

(** The rotation mode of every object, in table order. *)
Definition rotation_modes (h : Host) : list RotationMode :=
  rotation_mode <$> objects h.

(** The state an export borrows: the playback position and the rotation
    modes. *)
Definition borrowed (h : Host) : Z * list RotationMode :=
  (frame_current h, rotation_modes h).

(** The run from [h] ends with the borrowed state as it was in [h]. *)
Definition restores_state {A} (run : Host * Result A) (h : Host) : Prop :=
  borrowed (fst run) = borrowed h.

(** A scene with one animated camera in Euler mode, playback on frame
    10, frame range 1 to 3. *)
Definition euler_camera_scene : Host :=
  mkHost
    [mkObject "Camera" CAMERA mathutils.zero XYZ mathutils.identity
       (mkEuler 0 0 0 "XYZ")
       (Some (mkAnimData (Some
          (mkAction "CameraAction"
             {[1%Z := mkKeyframe mathutils.zero BEZIER AUTO_CLAMPED AUTO_CLAMPED]}
             ∅))))
       ∅ false]
    (Some 0%nat) None [0%nat] 1 3 10 24 BEZIER AUTO_CLAMPED [4; 2; 0]%Z [].

(** A host that raises while frame 2 is evaluated. *)
Definition failing_at_2 : Action -> Z -> Result (option Vector * option Quaternion) :=
  fun a n =>
    if (n =? 2)%Z then Raise (HostError "frame evaluation failed")
    else Ok (co <$> location_track a !! 1%Z, None).

(** A host that holds every animated location at its first keyframe. *)
Definition steady : Action -> Z -> Result (option Vector * option Quaternion) :=
  fun a n => Ok (co <$> location_track a !! 1%Z, None).

(** [wp m Q E h]: run from [h], [m] either returns a value and a host
    state satisfying [Q] or raises in a state satisfying [E]. *)
Definition wp {A} (m : M A) (Q : A -> Host -> Prop) (E : Exception -> Host -> Prop)
    (h : Host) : Prop :=
  match m h with
  | (h', Ok a) => Q a h'
  | (h', Raise e) => E e h'
  end.

(** [stable f m]: [m] leaves the observation [f] of the host as it was,
    whether it returns or raises. *)
Definition stable {A B} (f : Host -> B) (m : M A) : Prop :=
  forall h, f (fst (m h)) = f h.

(* ================================================================== *)
(** * The pose arithmetic *)
(* ================================================================== *)

Section PoseArithmetic.
Import mathutils.
Local Open Scope Q_scope.

Lemma component_bounds (q : Quaternion) :
  dot q <= 4 ->
  (-2 <= qw q <= 2) /\ (-2 <= qx q <= 2) /\ (-2 <= qy q <= 2) /\ (-2 <= qz q <= 2).
Proof.
  unfold dot. intros H.
  split; [|split; [|split]]; split; nra.
Qed.

Lemma Qabs_le_iff (x y : Q) : Qabs x <= y <-> - y <= x <= y.
Proof. apply Qabs_Qle_condition. Qed.

Lemma veq_vclose (eps : Q) (a b : Vector) :
  0 <= eps -> veq a b -> vclose eps a b.
Proof.
  unfold veq, vclose. intros He (Hx & Hy & Hz).
  split; [|split]; apply Qabs_le_iff; split; lra.
Qed.

(** The exporter's basis undoes the importer's up to the factor
    [2 * 0.7071068^2]. *)
Lemma basis_round_trip_exact (q : Quaternion) :
  let c := 2 * (0.7071068 * 0.7071068) in
  qeq (matmul (mkQuaternion 0.7071068 (-0.7071068) 0 0)
         (matmul (mkQuaternion 0.7071068 0.7071068 0 0) q))
      (mkQuaternion (c * qw q) (c * qx q) (c * qy q) (c * qz q)).
Proof.
  unfold qeq, matmul; cbn [qw qx qy qz]. split; [|split; [|split]]; ring.
Qed.
(** The two bases, one after the other, move no component by more than
    1e-5 on any quaternion of length at most 2: on every rotation, and on
    every wire value that is only nearly normalised. *)
Lemma basis_round_trip_close (q : Quaternion) :
  dot q <= 4 ->
  qclose 0.00001
    (matmul (mkQuaternion 0.7071068 (-0.7071068) 0 0)
       (matmul (mkQuaternion 0.7071068 0.7071068 0 0) q))
    q.
Proof.
  intros Hq. destruct (component_bounds q Hq) as (Hw & Hx & Hy & Hz).
  unfold qclose, matmul; cbn [qw qx qy qz].
  split; [|split; [|split]]; apply Qabs_le_iff; split; lra.
Qed.
End PoseArithmetic.

(** C1. Converting a pose from WebXR space to host space as the importer
    does (position (x, y, z) to (x, -z, y), rotation multiplied on the
    left by the +90 degree basis about X) and back as the exporter does
    (position (x, y, z) to (x, z, -y), rotation multiplied on the left by
    the -90 degree basis) returns the original position exactly and the
    original rotation within 1e-5 on every component, for every position
    and every rotation (unit quaternion). *)
Theorem convert_space_round_trip (imp : Importer.Props) (exp : Exporter.Props)
    (p : Vector) (q : Quaternion) :
  Importer.coordinate_system imp = BLENDER ->
  Exporter.coordinate_system exp = WEBXR ->
  mathutils.is_rotation q ->
  mathutils.veq (fst (round_trip imp exp p q)) p /\
  mathutils.vclose 0.00001 (fst (round_trip imp exp p q)) p /\
  mathutils.qclose 0.00001 (snd (round_trip imp exp p q)) q.
Proof.
  intros Hi He Hq.
  unfold round_trip, Importer.converted, Exporter.converted.
  rewrite Hi, He. cbn [fst snd].
  assert (mathutils.veq (mkVector (vx p) (vy p) (- - vz p)) p) as Hp.
  { unfold mathutils.veq; cbn [vx vy vz]. split; [|split]; ring. }
  split; [exact Hp|]. split.
  - apply veq_vclose; [lra | exact Hp].
  - apply basis_round_trip_close.
    unfold mathutils.is_rotation in Hq. rewrite Hq. lra.
Qed.

Lemma convert_space_round_trip_witness :
  mathutils.veq
    (fst (round_trip (Importer.defaults "a.json") (Exporter.defaults "b.json")
            (mkVector 1 2 3) (mkQuaternion (3 # 5) (4 # 5) 0 0)))
    (mkVector 1 2 3) /\
  mathutils.vclose 0.00001
    (fst (round_trip (Importer.defaults "a.json") (Exporter.defaults "b.json")
            (mkVector 1 2 3) (mkQuaternion (3 # 5) (4 # 5) 0 0)))
    (mkVector 1 2 3) /\
  mathutils.qclose 0.00001
    (snd (round_trip (Importer.defaults "a.json") (Exporter.defaults "b.json")
            (mkVector 1 2 3) (mkQuaternion (3 # 5) (4 # 5) 0 0)))
    (mkQuaternion (3 # 5) (4 # 5) 0 0).
Proof.
  apply (convert_space_round_trip (Importer.defaults "a.json")
           (Exporter.defaults "b.json") (mkVector 1 2 3)
           (mkQuaternion (3 # 5) (4 # 5) 0 0)).
  - reflexivity.
  - reflexivity.
  - vm_compute. reflexivity.
Defined.

(** C5. With the conversion to host space selected (and unit scale, no
    deltas), the wire position [1,0,0] becomes the host position (1,0,0)
    and the wire position [0,1,0] becomes (0,0,1). *)
Theorem import_position_axes (self : Importer.Props) (t qj : json)
    (initial_pos : Vector) (initial_rot q0 : Quaternion) (p0 : Vector)
    (q : Quaternion) :
  Importer.coordinate_system self = BLENDER ->
  Importer.scale_factor self = 1%Q ->
  Importer.apply_deltas self = false ->
  (exists p, Importer.parse_p (wire_frame t qj [1; 0; 0]%Q) = Ok p /\
     mathutils.veq (fst (Importer.final self initial_pos initial_rot q0 p0 p q))
       (mkVector 1 0 0)) /\
  (exists p, Importer.parse_p (wire_frame t qj [0; 1; 0]%Q) = Ok p /\
     mathutils.veq (fst (Importer.final self initial_pos initial_rot q0 p0 p q))
       (mkVector 0 0 1)).
Proof.
  intros Hc Hs Hd.
  split; (eexists; split; [reflexivity|]);
    unfold Importer.final, Importer.scaled, Importer.converted;
    rewrite Hc, Hs, Hd; vm_compute; repeat split; reflexivity.
Qed.

Lemma import_position_axes_witness :
  (exists p, Importer.parse_p (wire_frame (JNum 0) JNull [1; 0; 0]%Q) = Ok p /\
     mathutils.veq
       (fst (Importer.final (Importer.defaults "a.json") mathutils.zero
               mathutils.identity mathutils.identity mathutils.zero p
               mathutils.identity))
       (mkVector 1 0 0)) /\
  (exists p, Importer.parse_p (wire_frame (JNum 0) JNull [0; 1; 0]%Q) = Ok p /\
     mathutils.veq
       (fst (Importer.final (Importer.defaults "a.json") mathutils.zero
               mathutils.identity mathutils.identity mathutils.zero p
               mathutils.identity))
       (mkVector 0 0 1)).
Proof.
  apply (import_position_axes (Importer.defaults "a.json") (JNum 0) JNull
           mathutils.zero mathutils.identity mathutils.identity mathutils.zero
           mathutils.identity); reflexivity.
Defined.

(** C3. With [apply_deltas] set, the rotation written for a frame is
    [initial_rot @ (q0.inverted() @ q_converted)] and the position is
    [initial_pos + D], where D is [p_converted - p0], rotated by
    [initial_rot] when the coordinate system is converted and left as it
    is when it is kept.  In particular, from the origin with the identity
    rotation and a first-frame position (5,0,0), a converted position
    (6,0,0) gives the final position (1,0,0). *)
Theorem delta_rebasing (self : Importer.Props)
    (initial_pos : Vector) (initial_rot q0 : Quaternion) (p0 : Vector)
    (p : Vector) (q : Quaternion) :
  Importer.apply_deltas self = true ->
  let p_converted := fst (Importer.scaled self p q) in
  let q_converted := snd (Importer.scaled self p q) in
  snd (Importer.final self initial_pos initial_rot q0 p0 p q)
    = mathutils.matmul initial_rot
        (mathutils.matmul (mathutils.inverted q0) q_converted) /\
  fst (Importer.final self initial_pos initial_rot q0 p0 p q)
    = mathutils.add initial_pos
        (match Importer.coordinate_system self with
         | WEBXR => mathutils.sub p_converted p0
         | BLENDER => mathutils.rotate initial_rot (mathutils.sub p_converted p0)
         end) /\
  (p_converted = mkVector 6 0 0 ->
   mathutils.veq
     (fst (Importer.final self mathutils.zero mathutils.identity q0
             (mkVector 5 0 0) p q))
     (mkVector 1 0 0)).
Proof.
  intros Hd p_converted q_converted.
  subst p_converted q_converted.
  unfold Importer.final.
  destruct (Importer.scaled self p q) as [pc qc] eqn:Hs.
  rewrite Hd. cbn [fst snd]. unfold Importer.rebased. cbn [fst snd].
  split; [reflexivity|]. split.
  - destruct (Importer.coordinate_system self); reflexivity.
  - intros ->.
    destruct (Importer.coordinate_system self);
      vm_compute; repeat split; reflexivity.
Qed.

Lemma delta_rebasing_witness :
  let self := Importer.mkProps "a.json" true false 1 WEBXR true 30 in
  let p := mkVector 6 0 0 in
  let q := mathutils.identity in
  fst (Importer.scaled self p q) = mkVector 6 0 0 /\
  mathutils.veq
    (fst (Importer.final self mathutils.zero mathutils.identity mathutils.identity
            (mkVector 5 0 0) p q))
    (mkVector 1 0 0).
Proof.
  intros self p q.
  split; [reflexivity|].
  apply (delta_rebasing self mathutils.zero mathutils.identity mathutils.identity
           (mkVector 5 0 0) p q); reflexivity.
Defined.

(* ================================================================== *)
(** * Binary rounding *)
(* ================================================================== *)

Section Rounding.
Local Open Scope Q_scope.

Lemma round_half_even_error (x : Q) :
  Qabs (inject_Z (round_half_even x) - x) <= 1 # 2.
Proof.
  unfold round_half_even.
  pose proof (Qfloor_le x) as Hlo. pose proof (Qlt_floor x) as Hhi.
  rewrite inject_Z_plus in Hhi. change (inject_Z 1) with 1 in Hhi.
  apply Qabs_le_iff.
  destruct (Qcompare (x - inject_Z (Qfloor x)) (1 # 2)) eqn:Hc.
  - apply Qeq_alt in Hc. destruct (Z.even (Qfloor x)).
    + split; lra.
    + rewrite inject_Z_plus. change (inject_Z 1) with 1. split; lra.
  - apply Qlt_alt in Hc. split; lra.
  - apply Qgt_alt in Hc. rewrite inject_Z_plus. change (inject_Z 1) with 1.
    split; lra.
Qed.

Lemma pow2_pos (e : Z) : 0 < 2 ^ e.
Proof. apply Qpower_0_lt. reflexivity. Qed.

Lemma pow2_succ (e : Z) : 2 ^ (e + 1) == 2 * 2 ^ e.
Proof. rewrite Qpower_plus by discriminate. change (2 ^ 1) with 2. ring. Qed.

Lemma pow2_log2 (n : Z) :
  (0 < n)%Z -> 2 ^ Z.log2 n <= inject_Z n /\ inject_Z n < 2 ^ (Z.log2 n + 1).
Proof.
  intros Hn. destruct (Z.log2_spec n Hn) as [Hlo Hhi].
  pose proof (Z.log2_nonneg n) as H0.
  split.
  - change 2 with (inject_Z 2). rewrite <- Zpower_Qpower by exact H0.
    rewrite <- Zle_Qle. exact Hlo.
  - change 2 with (inject_Z 2). rewrite <- Zpower_Qpower by lia.
    rewrite <- Zlt_Qlt. replace (Z.log2 n + 1)%Z with (Z.succ (Z.log2 n)) by lia.
    exact Hhi.
Qed.

(** [ilog2] is the exponent of the leading bit. *)
Lemma ilog2_spec (x : Q) :
  0 < x -> 2 ^ float.ilog2 x <= x /\ x < 2 ^ (float.ilog2 x + 1).
Proof.
  intros Hx. destruct x as [n d]. unfold float.ilog2; cbn [Qnum Qden].
  assert (0 < n)%Z as Hn by (unfold Qlt in Hx; cbn in Hx; lia).
  destruct (pow2_log2 n Hn) as [Hn1 Hn2].
  destruct (pow2_log2 (Z.pos d) eq_refl) as [Hd1 Hd2].
  set (ln := Z.log2 n) in *. set (ld := Z.log2 (Z.pos d)) in *.
  assert (n # d == inject_Z n / inject_Z (Z.pos d)) as Hq by apply Qmake_Qdiv.
  pose proof (pow2_pos ln) as Pn. pose proof (pow2_pos ld) as Pd.
  assert (0 < inject_Z (Z.pos d)) as HD
    by (change 0 with (inject_Z 0); rewrite <- Zlt_Qlt; lia).
  assert (0 < inject_Z n) as HN
    by (change 0 with (inject_Z 0); rewrite <- Zlt_Qlt; lia).
  rewrite pow2_succ in Hn2, Hd2.
  assert (2 ^ (ln - ld) == 2 ^ ln / 2 ^ ld) as Hk by (apply Qpower_minus; discriminate).
  destruct (Qle_bool (2 ^ (ln - ld)) (n # d)) eqn:Hb.
  - apply Qle_bool_iff in Hb. split; [exact Hb|].
    rewrite pow2_succ, Hk, Hq.
    apply Qlt_shift_div_r; [exact HD|].
    assert (2 * (2 ^ ln / 2 ^ ld) * inject_Z (Z.pos d)
            == 2 * 2 ^ ln * (inject_Z (Z.pos d) / 2 ^ ld)) as -> by (field; lra).
    assert (1 <= inject_Z (Z.pos d) / 2 ^ ld) by (apply Qle_shift_div_l; lra).
    nra.
  - assert (~ 2 ^ (ln - ld) <= n # d) as Hb'.
    { intros H. apply Qle_bool_iff in H. congruence. }
    apply Qnot_le_lt in Hb'.
    replace (ln - ld - 1 + 1)%Z with (ln - ld)%Z by lia.
    split; [|exact Hb'].
    assert (2 ^ (ln - ld - 1) == 2 ^ ln / (2 * 2 ^ ld)) as ->.
    { replace (ln - ld - 1)%Z with (ln - (ld + 1))%Z by lia.
      rewrite Qpower_minus by discriminate. rewrite pow2_succ. reflexivity. }
    rewrite Hq. apply Qle_shift_div_l; [exact HD|].
    assert (2 ^ ln / (2 * 2 ^ ld) * inject_Z (Z.pos d)
            == 2 ^ ln * (inject_Z (Z.pos d) / (2 * 2 ^ ld))) as -> by (field; lra).
    assert (inject_Z (Z.pos d) / (2 * 2 ^ ld) <= 1).
    { apply Qle_shift_div_r; lra. }
    nra.
Qed.

(** Rounding moves a number by half a unit of its last place at most:
    a relative error of [2^-prec], or the absolute error [2^(emin-1)] on
    subnormal numbers. *)
Lemma round_error (prec emin : Z) (x : Q) :
  Qabs (float.round prec emin x - x) <= 2 ^ (- prec) * Qabs x + 2 ^ (emin - 1).
Proof.
  unfold float.round.
  pose proof (Qabs_nonneg x) as Hx0.
  pose proof (pow2_pos (- prec)) as Pu. pose proof (pow2_pos (emin - 1)) as Pe.
  destruct (Qeq_bool x 0) eqn:Hz.
  - apply Qeq_bool_iff in Hz.
    assert (0 - x == 0) as -> by lra. change (Qabs 0) with 0. nra.
  - assert (~ x == 0) as Hne.
    { intros H. apply Qeq_bool_iff in H. congruence. }
    assert (0 < Qabs x) as Hpos.
    { destruct (Qlt_le_dec 0 (Qabs x)) as [H|H]; [exact H|].
      exfalso. apply Hne. apply Qabs_le_iff in H. lra. }
    destruct (ilog2_spec (Qabs x) Hpos) as [Hlo _].
    set (k := float.ilog2 (Qabs x)) in *.
    set (e := Z.max (k - prec + 1) emin).
    rewrite Qred_correct.
    pose proof (pow2_pos e) as Pq.
    pose proof (round_half_even_error (x / 2 ^ e)) as Hr.
    set (m := inject_Z (round_half_even (x / 2 ^ e))) in *.
    assert (Qabs (m * 2 ^ e - x) <= 2 ^ (e - 1)) as Hle.
    { assert (m * 2 ^ e - x == (m - x / 2 ^ e) * 2 ^ e) as -> by (field; lra).
      rewrite Qabs_Qmult, (Qabs_pos (2 ^ e)) by lra.
      assert (2 ^ (e - 1) == (1 # 2) * 2 ^ e) as ->.
      { rewrite Qpower_minus by discriminate. change (2 ^ 1) with 2. field. }
      apply Qmult_le_compat_r; lra. }
    eapply Qle_trans; [exact Hle|].
    destruct (Z.max_spec (k - prec + 1) emin) as [[_ He]|[_ He]]; fold e in He;
      rewrite He.
    + nra.
    + replace (k - prec + 1 - 1)%Z with (- prec + k)%Z by lia.
      rewrite Qpower_plus by discriminate. nra.
Qed.

(** The error of one rounding to single precision. *)
Lemma single_error (x : Q) :
  Qabs (mathutils.single x - x) <=
    (1 # 16777216) * Qabs x + (1 # 1427247692705959881058285969449495136382746624).
Proof. exact (round_error 24 (-149) x). Qed.

(** A value that is perturbed like one rounding: its distance to [x]
    and its own magnitude. *)
Lemma perturbed (u k x y : Q) :
  Qabs (y - x) <= u * Qabs x + k ->
  Qabs y <= (1 + u) * Qabs x + k.
Proof.
  intros H. pose proof (Qabs_triangle (y - x) x) as Ht.
  assert (y - x + x == y) as E by ring. rewrite E in Ht. lra.
Qed.

Lemma Qabs_div_pos (x g : Q) : 0 < g -> Qabs (x / g) == Qabs x / g.
Proof.
  intros Hg. unfold Qdiv. rewrite Qabs_Qmult.
  rewrite (Qabs_pos (/ g)); [reflexivity|].
  apply Qlt_le_weak, Qinv_lt_0_compat, Hg.
Qed.
End Rounding.

(* ================================================================== *)
(** * Frame selection *)
(* ================================================================== *)

Section Ranges.
Local Open Scope Z_scope.

Lemma range_points_sorted (start step : Z) (n a : nat) :
  0 < step ->
  StronglySorted Z.lt
    (map (fun i : nat => start + Z.of_nat i * step) (seq a n)).
Proof.
  intros Hs. revert a. induction n as [|n IH]; intros a; cbn [seq map].
  - constructor.
  - constructor; [apply IH|].
    apply Forall_forall. intros x Hx.
    apply list_elem_of_In, in_map_iff in Hx. destruct Hx as (j & <- & Hj).
    apply in_seq in Hj. nia.
Qed.

(** What [range(start, stop, step)] holds for a positive step. *)
Lemma py_range_positive (start stop step : Z) :
  0 < step ->
  exists l, py_range start stop step = Ok l /\
    (forall n, In n l <-> start <= n < stop /\ (n - start) mod step = 0) /\
    StronglySorted Z.lt l.
Proof.
  intros Hs. unfold py_range.
  destruct (step =? 0) eqn:E0; [apply Z.eqb_eq in E0; lia|].
  eexists; split; [reflexivity|]. split; [|apply range_points_sorted; exact Hs].
  intros n. rewrite in_map_iff. unfold range_len.
  destruct (0 <? step) eqn:E1; [|apply Z.ltb_ge in E1; lia].
  destruct (start <? stop) eqn:E2.
  - apply Z.ltb_lt in E2.
    pose proof (Z.mul_div_le (stop - start - 1) step Hs) as Hd.
    assert (0 <= (stop - start - 1) / step) as Hq by (apply Z.div_pos; lia).
    split.
    + intros (i & <- & Hi). apply in_seq in Hi.
      assert (Z.of_nat i <= (stop - start - 1) / step) as Hle by lia.
      split; [nia|].
      replace (start + Z.of_nat i * step - start) with (Z.of_nat i * step) by ring.
      apply Z_mod_mult.
    + intros (Hr & Hm).
      apply Z_div_exact_full_2 in Hm; [|lia].
      assert (0 <= (n - start) / step) as Hk by (apply Z.div_pos; lia).
      exists (Z.to_nat ((n - start) / step)). split.
      * rewrite Z2Nat.id by exact Hk. lia.
      * apply in_seq. split; [lia|].
        assert ((n - start) / step <= (stop - start - 1) / step) as Hle.
        { apply Z.div_le_lower_bound; [exact Hs|]. lia. }
        lia.
  - apply Z.ltb_ge in E2. cbn [Z.to_nat seq]. split.
    + intros (i & _ & []).
    + intros (Hr & _). lia.
Qed.
End Ranges.

(** C8. Under CUSTOM_RATE the frames sampled are exactly the integers
    [frame_start + k * custom_sample_rate] between [frame_start] and
    [frame_end] inclusive, in increasing order; with start 1, end 10 and
    stride 3 they are [1, 4, 7, 10].  Under ALL_FRAMES they are all the
    integers from [frame_start] to [frame_end]. *)
Theorem frames_to_sample_ranges (self : Exporter.Props) (camera : nat) (h : Host) :
  (1 <= Exporter.custom_sample_rate self)%Z ->
  (Exporter.sample_mode self = Exporter.CUSTOM_RATE ->
     exists l, Exporter._get_frames_to_sample self camera h = (h, Ok l) /\
       (forall n, In n l <->
          (frame_start h <= n <= frame_end h)%Z /\
          ((n - frame_start h) mod Exporter.custom_sample_rate self = 0)%Z) /\
       StronglySorted Z.lt l) /\
  (Exporter.sample_mode self = Exporter.CUSTOM_RATE ->
   Exporter.custom_sample_rate self = 3%Z -> frame_start h = 1%Z -> frame_end h = 10%Z ->
     Exporter._get_frames_to_sample self camera h = (h, Ok [1; 4; 7; 10]%Z)) /\
  (Exporter.sample_mode self = Exporter.ALL_FRAMES ->
     exists l, Exporter._get_frames_to_sample self camera h = (h, Ok l) /\
       (forall n, In n l <-> (frame_start h <= n <= frame_end h)%Z) /\
       StronglySorted Z.lt l).
Proof.
  intros Hrate. split; [|split].
  - intros Hm. unfold Exporter._get_frames_to_sample. rewrite Hm.
    destruct (py_range_positive (frame_start h) (frame_end h + 1)
                (Exporter.custom_sample_rate self)) as (l & Hl & Hin & Hsorted); [lia|].
    exists l. split; [|split].
    + unfold bind, gets, lift. rewrite Hl. reflexivity.
    + intros n. rewrite Hin. intuition lia.
    + exact Hsorted.
  - intros Hm H3 H1 H10. unfold Exporter._get_frames_to_sample.
    rewrite Hm. unfold bind, gets, lift. rewrite H3, H1, H10. reflexivity.
  - intros Hm. unfold Exporter._get_frames_to_sample. rewrite Hm.
    destruct (py_range_positive (frame_start h) (frame_end h + 1) 1)
      as (l & Hl & Hin & Hsorted); [lia|].
    exists l. split; [|split].
    + unfold bind, gets, lift. rewrite Hl. reflexivity.
    + intros n. rewrite Hin. rewrite Z.mod_1_r. intuition lia.
    + exact Hsorted.
Qed.

Lemma frames_to_sample_ranges_witness :
  let self := Exporter.mkProps "out.json" true 1 WEBXR Exporter.CUSTOM_RATE 3 true
                "local-floor" in
  let h := mkHost [] None None [] 1 10 1 24 BEZIER AUTO_CLAMPED [4; 2; 0]%Z [] in
  Exporter._get_frames_to_sample self 0 h = (h, Ok [1; 4; 7; 10]%Z).
Proof.
  intros self h.
  apply (frames_to_sample_ranges self 0%nat h); [cbn; lia | reflexivity ..].
Defined.

(* ================================================================== *)
(** * Reasoning about operator code *)
(* ================================================================== *)

Section WeakestPre.
Context {A B : Type}.
Implicit Types (Q : A -> Host -> Prop) (E : Exception -> Host -> Prop).

Lemma wp_ret a Q E h : Q a h -> wp (ret a) Q E h.
Proof. exact id. Qed.

Lemma wp_raise e Q E h : E e h -> wp (raise e) Q E h.
Proof. exact id. Qed.

Lemma wp_lift (r : Result A) Q E h :
  match r with Ok a => Q a h | Raise e => E e h end -> wp (lift r) Q E h.
Proof. unfold wp, lift. destruct r; exact id. Qed.

Lemma wp_gets (f : Host -> A) Q E h : Q (f h) h -> wp (gets f) Q E h.
Proof. exact id. Qed.

Lemma wp_bind (m : M A) (k : A -> M B) (Q : B -> Host -> Prop) E h :
  wp m (fun a h' => wp (k a) Q E h') E h -> wp (bind m k) Q E h.
Proof. unfold wp, bind. destruct (m h) as [h' [a|e]]; exact id. Qed.

Lemma wp_try_except (body : M A) (handler : Exception -> M A) Q E h :
  wp body Q (fun e h' => wp (handler e) Q E h') h ->
  wp (try_except body handler) Q E h.
Proof. unfold wp, try_except. destruct (body h) as [h' [a|e]]; exact id. Qed.

Lemma wp_mono (m : M A) Q Q' E E' h :
  wp m Q E h ->
  (forall a h', Q a h' -> Q' a h') -> (forall e h', E e h' -> E' e h') ->
  wp m Q' E' h.
Proof. unfold wp. destruct (m h) as [h' [a|e]]; eauto. Qed.

Lemma wp_any (m : M A) Q E h :
  (forall a h', Q a h') -> (forall e h', E e h') -> wp m Q E h.
Proof. unfold wp. destruct (m h) as [h' [a|e]]; eauto. Qed.

(** Reading a run off a [wp]. *)
Lemma wp_run (m : M A) Q E h h' a :
  wp m Q E h -> m h = (h', Ok a) -> Q a h'.
Proof. unfold wp. intros H Hrun. rewrite Hrun in H. exact H. Qed.

Lemma wp_stable {C} (f : Host -> C) (m : M A) Q E h :
  stable f m ->
  (forall a h', f h' = f h -> Q a h') -> (forall e h', f h' = f h -> E e h') ->
  wp m Q E h.
Proof.
  unfold wp, stable. intros Hs HQ HE. specialize (Hs h).
  destruct (m h) as [h' [a|e]]; eauto.
Qed.
End WeakestPre.

Lemma wp_modify (f : Host -> Host) (Q : unit -> Host -> Prop) E h :
  Q tt (f h) -> wp (modify f) Q E h.
Proof. exact id. Qed.

Lemma wp_for_each {A} (I : Host -> Prop) (l : list A) (body : A -> M unit)
    (E : Exception -> Host -> Prop) h :
  I h ->
  (forall x h0, In x l -> I h0 -> wp (body x) (fun _ h1 => I h1) E h0) ->
  wp (for_each l body) (fun _ h' => I h') E h.
Proof.
  revert h. induction l as [|x l IH]; intros h Hi Hbody; cbn [for_each].
  - exact Hi.
  - apply wp_bind. eapply wp_mono.
    + apply Hbody; [left; reflexivity | exact Hi].
    + intros u h1 H1. apply IH; [exact H1|].
      intros y h0 Hy. apply Hbody. right. exact Hy.
    + auto.
Qed.

Section Stable.
Context {C : Type} (f : Host -> C).

Lemma stable_ret {A} (a : A) : stable f (ret a).
Proof. intros h. reflexivity. Qed.

Lemma stable_raise {A} e : stable f (raise (A := A) e).
Proof. intros h. reflexivity. Qed.

Lemma stable_lift {A} (r : Result A) : stable f (lift r).
Proof. intros h. reflexivity. Qed.

Lemma stable_gets {A} (g : Host -> A) : stable f (gets g).
Proof. intros h. reflexivity. Qed.

Lemma stable_modify (g : Host -> Host) :
  (forall h, f (g h) = f h) -> stable f (modify g).
Proof. intros Hg h. apply Hg. Qed.

Lemma stable_bind {A B} (m : M A) (k : A -> M B) :
  stable f m -> (forall a, stable f (k a)) -> stable f (bind m k).
Proof.
  intros Hm Hk h. unfold bind. specialize (Hm h).
  destruct (m h) as [h' [a|e]]; cbn [fst] in *.
  - rewrite Hk. exact Hm.
  - exact Hm.
Qed.

Lemma stable_try_except {A} (body : M A) (handler : Exception -> M A) :
  stable f body -> (forall e, stable f (handler e)) ->
  stable f (try_except body handler).
Proof.
  intros Hm Hk h. unfold try_except. specialize (Hm h).
  destruct (body h) as [h' [a|e]]; cbn [fst] in *.
  - exact Hm.
  - rewrite Hk. exact Hm.
Qed.

Lemma stable_for_each {A} (l : list A) (body : A -> M unit) :
  (forall x, stable f (body x)) -> stable f (for_each l body).
Proof.
  intros Hb. induction l as [|x l IH]; cbn [for_each].
  - apply stable_ret.
  - apply stable_bind; [apply Hb | intros _; exact IH].
Qed.

(** The host calls, for an observation that does not look at the
    object table. *)
Hypothesis f_objects : forall l h, f (with_objects l h) = f h.

Lemma stable_get_object i : stable f (bpy.get_object i).
Proof. intros h. unfold bpy.get_object. destruct (objects h !! i); reflexivity. Qed.

Lemma stable_update_object i g : stable f (bpy.update_object i g).
Proof.
  apply stable_bind; [apply stable_get_object|].
  intros o. apply stable_modify. intros h. apply f_objects.
Qed.

Lemma stable_new_camera nm : stable f (bpy.new_camera nm).
Proof. intros h. apply f_objects. Qed.

Lemma stable_keyframe_insert_location i n :
  stable f (bpy.keyframe_insert_location i n).
Proof.
  unfold bpy.keyframe_insert_location.
  apply stable_bind; [apply stable_gets|]. intros ?.
  apply stable_bind; [apply stable_gets|]. intros ?.
  apply stable_update_object.
Qed.

Lemma stable_keyframe_insert_rotation_quaternion i n :
  stable f (bpy.keyframe_insert_rotation_quaternion i n).
Proof.
  unfold bpy.keyframe_insert_rotation_quaternion.
  apply stable_bind; [apply stable_gets|]. intros ?.
  apply stable_bind; [apply stable_gets|]. intros ?.
  apply stable_update_object.
Qed.

Hypothesis f_frame_current : forall n h, f (with_frame_current n h) = f h.

Lemma stable_frame_set evaluate n : stable f (bpy.frame_set evaluate n).
Proof.
  intros h. unfold bpy.frame_set.
  destruct (bpy.evaluate_objects evaluate n (objects (with_frame_current n h)));
    cbn [fst]; [rewrite f_objects|]; apply f_frame_current.
Qed.
End Stable.

Ltac stable_step :=
  lazymatch goal with
  | |- stable _ (ret _) => apply stable_ret
  | |- stable _ (raise _) => apply stable_raise
  | |- stable _ (lift _) => apply stable_lift
  | |- stable _ (gets _) => apply stable_gets
  | |- stable _ (modify _) => apply stable_modify; intros; reflexivity
  | |- stable _ (report _) => unfold report
  | |- stable _ (bpy.get_object _) => apply stable_get_object
  | |- stable _ (bpy.update_object _ _) =>
      apply stable_update_object; intros; reflexivity
  | |- stable _ (bpy.new_camera _) => apply stable_new_camera; intros; reflexivity
  | |- stable _ (bpy.keyframe_insert_location _ _) =>
      apply stable_keyframe_insert_location; intros; reflexivity
  | |- stable _ (bpy.keyframe_insert_rotation_quaternion _ _) =>
      apply stable_keyframe_insert_rotation_quaternion; intros; reflexivity
  | |- stable _ (bpy.frame_set _ _) => apply stable_frame_set; intros; reflexivity
  | |- stable _ (for_each _ _) => apply stable_for_each; intros ?
  | |- stable _ (bind _ _) => apply stable_bind; [|intros ?]
  | |- stable _ (if ?b then _ else _) => destruct b
  | |- stable _ (match ?x with _ => _ end) => destruct x
  end.

Ltac stable_tac := repeat stable_step.

(* ================================================================== *)
(** * The import pipeline *)
(* ================================================================== *)

Section PyInt.
Local Open Scope Z_scope.

(** Truncation and floor agree once clamped from below by 1. *)
Lemma max_py_int_floor (x : Q) : Z.max (py_int x) 1 = Z.max 1 (Qfloor x).
Proof.
  destruct x as [n d]. unfold py_int, Qfloor; cbn [Qnum Qden].
  destruct (Z_lt_le_dec n 0) as [Hn|Hn].
  - assert (n / Z.pos d < 0) by (apply Z.div_lt_upper_bound; lia).
    assert (Z.quot n (Z.pos d) <= 0).
    { rewrite <- (Z.opp_involutive n), Z.quot_opp_l by lia.
      assert (0 <= Z.quot (- n) (Z.pos d)) by (apply Z.quot_pos; lia). lia. }
    lia.
  - rewrite Z.quot_div_nonneg by lia. lia.
Qed.

(** On a clip time whose product with the frame rate is not negative
    the frame index is the floor of the product, plus one. *)
Lemma frame_number_floor (self : Importer.Props) (time v : Q) :
  py_float_mul time (Importer.frame_rate self) = Ok v ->
  (0 <= v)%Q ->
  Importer.frame_number self time = Ok (Qfloor v + 1).
Proof.
  intros Hv H. unfold Importer.frame_number. rewrite Hv. cbn [rbind].
  unfold py_int, Qfloor. destruct v as [n d].
  unfold Qle in H; cbn [Qnum Qden] in *.
  rewrite Z.quot_div_nonneg by lia. reflexivity.
Qed.
End PyInt.

(** A product of floats that is finite is the double nearest to the
    product of the operands as doubles. *)
Lemma py_float_mul_value (x y v : Q) :
  py_float_mul x y = Ok v ->
  v = float.binary64 (float.binary64 x * float.binary64 y).
Proof.
  unfold py_float_mul, py_float.
  destruct (float.finite64 (float.binary64 x)); [|discriminate].
  destruct (float.finite64 (float.binary64 y)); [|discriminate].
  cbn [rbind].
  destruct (float.finite64 _); [|discriminate].
  intros [= <-]. reflexivity.
Qed.

Section ImportRange.
Variable to_quaternion : Euler -> Quaternion.
Variable evaluate : Action -> Z -> Result (option Vector * option Quaternion).
Variable self : Importer.Props.

Lemma import_frame_keeps_range camera initial_pos initial_rot q0 p0 frame_data :
  stable range_of
    (Importer.import_frame evaluate self camera initial_pos initial_rot q0 p0
       frame_data).
Proof.
  unfold Importer.import_frame. stable_tac.
Qed.

Lemma _import_animation_range camera frames metadata h :
  wp (Importer._import_animation to_quaternion evaluate self camera frames metadata)
     (fun _ h' =>
        exists duration product,
          clip_duration frames = Ok duration /\
          py_float_mul duration (Importer.frame_rate self) = Ok product /\
          frame_start h' = 1%Z /\
          frame_end h' = Z.max 1 (Qfloor product))
     (fun _ _ => True) h.
Proof.
  unfold Importer._import_animation, clip_duration.
  apply wp_bind, wp_lift.
  destruct (last frames) as [f|]; [|exact I].
  destruct (py.getitem f "t") as [t|]; [|exact I].
  apply wp_bind, wp_lift. cbn [rbind].
  destruct (py.as_float t) as [duration|]; [|exact I].
  apply wp_bind, wp_lift.
  destruct (py_float_mul duration (Importer.frame_rate self)) as [product|] eqn:Hp;
    [|exact I].
  cbn [rbind].
  apply wp_bind, wp_modify. apply wp_bind, wp_modify. apply wp_bind, wp_modify.
  apply wp_stable with (f := range_of).
  - stable_tac; apply import_frame_keeps_range.
  - intros _ h' Hr. exists duration, product. split; [reflexivity|].
    split; [exact Hp|].
    unfold range_of in Hr. cbn in Hr. injection Hr as Hs He.
    rewrite Hs, He. split; [reflexivity|]. apply max_py_int_floor.
  - auto.
Qed.
End ImportRange.

(* ================================================================== *)
(** * Following one object through a run *)
(* ================================================================== *)

Section Focus.
Variable i : nat.
Implicit Types (Q : unit -> Host -> Prop) (E : Exception -> Host -> Prop).

Lemma wp_get_object_at o (Q : Object -> Host -> Prop) E h :
  objects h !! i = Some o -> Q o h -> wp (bpy.get_object i) Q E h.
Proof. intros Ho HQ. unfold wp, bpy.get_object. rewrite Ho. exact HQ. Qed.

Lemma wp_update_object_exact f o Q E h :
  objects h !! i = Some o ->
  Q tt (with_objects (<[i := f o]> (objects h)) h) ->
  wp (bpy.update_object i f) Q E h.
Proof.
  intros Ho HQ. unfold bpy.update_object. apply wp_bind.
  apply (wp_get_object_at o); [exact Ho|]. apply wp_modify. exact HQ.
Qed.

Lemma wp_update_object_at f o Q E h :
  objects h !! i = Some o ->
  (forall h', objects h' !! i = Some (f o) -> Q tt h') ->
  wp (bpy.update_object i f) Q E h.
Proof.
  intros Ho HQ. apply (wp_update_object_exact f o); [exact Ho|].
  apply HQ. cbn. apply list_lookup_insert_eq. eapply lookup_lt_Some, Ho.
Qed.

Lemma wp_modify_at g o Q E h :
  (forall h0, objects (g h0) = objects h0) ->
  objects h !! i = Some o ->
  (forall h', objects h' !! i = Some o -> Q tt h') ->
  wp (modify g) Q E h.
Proof. intros Hg Ho HQ. apply wp_modify, HQ. rewrite Hg. exact Ho. Qed.

Lemma wp_keyframe_insert_location_at n o (a := bpy.the_action o) Q E h :
  objects h !! i = Some o ->
  (forall h' ki kh,
      objects h' !! i = Some
        (with_animation_data
           (Some (mkAnimData (Some
              (mkAction (action_name a)
                 (<[n := mkKeyframe (location o) ki kh kh]> (location_track a))
                 (rotation_track a))))) o) ->
      Q tt h') ->
  wp (bpy.keyframe_insert_location i n) Q E h.
Proof.
  intros Ho HQ. unfold bpy.keyframe_insert_location.
  apply wp_bind, wp_gets. apply wp_bind, wp_gets.
  eapply wp_update_object_at; [exact Ho|]. intros h'. apply HQ.
Qed.

Lemma wp_keyframe_insert_rotation_quaternion_at n o (a := bpy.the_action o) Q E h :
  objects h !! i = Some o ->
  (forall h' ki kh,
      objects h' !! i = Some
        (with_animation_data
           (Some (mkAnimData (Some
              (mkAction (action_name a) (location_track a)
                 (<[n := mkKeyframe (rotation_quaternion o) ki kh kh]>
                    (rotation_track a)))))) o) ->
      Q tt h') ->
  wp (bpy.keyframe_insert_rotation_quaternion i n) Q E h.
Proof.
  intros Ho HQ. unfold bpy.keyframe_insert_rotation_quaternion.
  apply wp_bind, wp_gets. apply wp_bind, wp_gets.
  eapply wp_update_object_at; [exact Ho|]. intros h'. apply HQ.
Qed.

Lemma evaluate_objects_total ev n l :
  bpy.evaluate_objects (total ev) n l = Ok (evaluated ev n <$> l).
Proof.
  induction l as [|o l IH]; cbn [bpy.evaluate_objects fmap list_fmap]; [reflexivity|].
  rewrite IH. unfold bpy.evaluate_object, evaluated, total.
  destruct (animation_data o) as [[[a|]]|]; reflexivity.
Qed.

Lemma wp_frame_set_exact ev n Q E h :
  Q tt (with_objects (evaluated ev n <$> objects h) (with_frame_current n h)) ->
  wp (bpy.frame_set (total ev) n) Q E h.
Proof.
  intros HQ. unfold wp, bpy.frame_set.
  cbn [objects with_frame_current]. rewrite evaluate_objects_total. exact HQ.
Qed.

Lemma wp_frame_set_at ev n o Q E h :
  objects h !! i = Some o ->
  (forall h', objects h' !! i = Some (evaluated ev n o) -> Q tt h') ->
  wp (bpy.frame_set (total ev) n) Q E h.
Proof.
  intros Ho HQ. apply wp_frame_set_exact, HQ. cbn [objects with_objects].
  rewrite list_lookup_fmap, Ho. reflexivity.
Qed.
End Focus.

Lemma wp_new_camera_at nm (Q : nat -> Host -> Prop) E h :
  (forall h' i,
      objects h' !! i =
        Some (mkObject nm CAMERA mathutils.zero XYZ mathutils.identity
                (mkEuler 0 0 0 "XYZ") None ∅ false) ->
      Q i h') ->
  wp (bpy.new_camera nm) Q E h.
Proof.
  intros HQ. unfold wp, bpy.new_camera. apply HQ. cbn [objects with_objects].
  rewrite lookup_app_r by lia. rewrite Nat.sub_diag. reflexivity.
Qed.

(** ** Stepping through a run with one object in view *)

Lemma wp_report r (Q : unit -> Host -> Prop) E h :
  Q tt (with_reports (reports h ++ [r]) h) -> wp (report r) Q E h.
Proof. exact id. Qed.

Ltac eval_scrutinee :=
  lazymatch goal with
  | |- match ?r with Ok _ => _ | Raise _ => _ end =>
      let r' := eval vm_compute in r in change r with r'; cbv beta iota
  end.

Ltac norm_focus H :=
  cbn [with_location with_rotation_quaternion with_rotation_mode with_animation_data
       with_id_prop with_selected bpy.the_action bpy.apply_pose evaluated
       Importer.set_interpolation Importer.frame_number
       name type location rotation_mode rotation_quaternion rotation_euler
       animation_data id_props selected action action_name location_track
       rotation_track Importer.frame_rate] in H.

Ltac focus_step :=
  lazymatch goal with
  | |- wp (bind _ _) _ _ _ => apply wp_bind
  | |- wp (ret _) _ _ _ => apply wp_ret
  | |- wp (gets _) _ _ _ => apply wp_gets
  | |- wp (lift _) _ _ _ => apply wp_lift; try eval_scrutinee
  | |- wp (for_each (_ :: _) _) _ _ _ => cbn [for_each]
  | |- wp (for_each [] _) _ _ _ => cbn [for_each]
  | |- wp (Importer.import_frame _ _ _ _ _ _ _ _) _ _ _ => unfold Importer.import_frame
  | |- wp (let _ := _ in _) _ _ _ => cbv zeta
  | |- wp (match ?x with pair _ _ => _ end) _ _ _ =>
      let x' := eval vm_compute in x in change x with x'; cbv beta iota
  | |- wp (if ?b then _ else _) _ _ _ =>
      let b' := eval vm_compute in b in change b with b'; cbv beta iota
  | |- wp (match Some _ with Some _ => _ | None => _ end) _ _ _ => cbv beta iota
  | |- wp (bpy.new_camera _) _ _ ?h =>
      apply wp_new_camera_at; clear dependent h;
      let H := fresh "Hcam" in intros h ? H
  | H : objects ?h !! ?i = Some ?o |- wp (bpy.get_object ?i) _ _ ?h =>
      apply (wp_get_object_at i o); [exact H|]
  | H : objects ?h !! ?i = Some ?o |- wp (bpy.update_object ?i ?f) _ _ ?h =>
      apply (wp_update_object_at i f o); [exact H|];
      clear dependent h; intros h H; norm_focus H
  | H : objects ?h !! ?i = Some ?o |- wp (bpy.keyframe_insert_location ?i ?n) _ _ ?h =>
      apply (wp_keyframe_insert_location_at i n o); [exact H|];
      clear dependent h; intros h ? ? H; norm_focus H
  | H : objects ?h !! ?i = Some ?o
    |- wp (bpy.keyframe_insert_rotation_quaternion ?i ?n) _ _ ?h =>
      apply (wp_keyframe_insert_rotation_quaternion_at i n o); [exact H|];
      clear dependent h; intros h ? ? H; norm_focus H
  | H : objects ?h !! ?i = Some ?o |- wp (bpy.frame_set (total ?ev) ?n) _ _ ?h =>
      apply (wp_frame_set_at i ev n o); [exact H|];
      clear dependent h; intros h H; norm_focus H
  | H : objects ?h !! ?i = Some ?o |- wp (modify ?g) _ _ ?h =>
      apply (wp_modify_at i g o); [intros; reflexivity | exact H|];
      clear dependent h; intros h H
  end.

Lemma two_frames_animation tq ev path cs camera o h :
  let self := Importer.mkProps path true false 1 cs false 30 in
  objects h !! camera = Some o ->
  wp (Importer._import_animation tq (total ev) self camera two_frames two_frame_clip)
     (fun _ h' => exists o' a, objects h' !! camera = Some o' /\
         animation_data o' = Some (mkAnimData (Some a)) /\
         co <$> location_track a = {[1%Z := mkVector 0 0 0; 31%Z := mkVector 1 0 0]} /\
         co <$> rotation_track a = {[1%Z := snd (Importer.converted self mathutils.zero mathutils.identity); 31%Z := snd (Importer.converted self mathutils.zero mathutils.identity)]})
     (fun _ _ => False) h.
Proof.
  intros self Ho. unfold Importer._import_animation, two_frames.
  subst self; cbn [Importer.apply_deltas Importer.frame_rate Importer.filepath Importer.create_camera Importer.use_existing_camera].
  generalize (pathlib.stem path) (pathlib.name path). intros stem name.
  destruct cs.
  - repeat focus_step.
    eexists _, _. split; [exact Ho|]. split; [reflexivity|].
    split; vm_compute; reflexivity.
  - repeat focus_step.
    eexists _, _. split; [exact Ho|]. split; [reflexivity|].
    split; vm_compute; reflexivity.
Qed.

(** C4. Importing the clip with the two frames [{t:0, q:[0,0,0,1],
    p:[0,0,0]}] and [{t:1, q:[0,0,0,1], p:[1,0,0]}] at frame rate 30 and
    scale 1, with the other options at their defaults, into any scene
    whose animation system does not raise and for either coordinate
    system, finishes and leaves on the camera exactly two keyframes on each
    channel, on the frames 1 and 31, the location ones holding (0,0,0) and
    (1,0,0). *)
Theorem import_two_frames tq ev path cs h :
  let self := Importer.mkProps path true false 1 cs false 30 in
  exists h' camera o a,
    Importer.execute tq (total ev) self (Ok two_frame_clip) h = (h', Ok FINISHED) /\
    active_object h' = Some camera /\
    objects h' !! camera = Some o /\
    animation_data o = Some (mkAnimData (Some a)) /\
    size (location_track a) = 2%nat /\
    size (rotation_track a) = 2%nat /\
    co <$> location_track a = {[1%Z := mkVector 0 0 0; 31%Z := mkVector 1 0 0]} /\
    dom (rotation_track a) = {[1%Z; 31%Z]}.
Proof.
  intros self.
  assert (wp (Importer.execute tq (total ev) self (Ok two_frame_clip))
            (fun out h' => out = FINISHED /\ exists camera o a,
                active_object h' = Some camera /\
                objects h' !! camera = Some o /\
                animation_data o = Some (mkAnimData (Some a)) /\
                size (location_track a) = 2%nat /\
                size (rotation_track a) = 2%nat /\
                co <$> location_track a = {[1%Z := mkVector 0 0 0; 31%Z := mkVector 1 0 0]} /\
                dom (rotation_track a) = {[1%Z; 31%Z]})
            (fun _ _ => False) h) as Hwp.
  { unfold Importer.execute. apply wp_try_except.
    unfold Importer._get_or_create_camera.
    subst self. cbn [Importer.create_camera Importer.use_existing_camera Importer.filepath].
    repeat focus_step.
    eapply wp_mono; [apply (two_frames_animation tq ev path cs _ _ h Hcam)| |].
    2:{ intros e h' []. }
    cbv beta. intros _ h1 (o' & a & Ho' & Ha & Hl & Hr).
    apply wp_bind, wp_modify. apply wp_bind.
    eapply (wp_update_object_exact _ _ o'); [exact Ho'|].
    apply wp_bind, wp_report, wp_ret. split; [reflexivity|].
    eexists _, (with_selected true o'), a.
    split; [reflexivity|]. split.
    { cbn. apply list_lookup_insert_eq. eapply lookup_lt_Some, Ho'. }
    split; [exact Ha|].
    assert (dom (location_track a) = {[1%Z; 31%Z]}) as Hdl.
    { rewrite <- (dom_fmap_L co), Hl. vm_compute. reflexivity. }
    assert (dom (rotation_track a) = {[1%Z; 31%Z]}) as Hdr.
    { rewrite <- (dom_fmap_L co), Hr. vm_compute. reflexivity. }
    split; [rewrite <- size_dom, Hdl; reflexivity|].
    split; [rewrite <- size_dom, Hdr; reflexivity|].
    split; [exact Hl | exact Hdr]. }
  unfold wp in Hwp.
  destruct (Importer.execute tq (total ev) self (Ok two_frame_clip) h) as [h' [out|e]];
    [|destruct Hwp].
  destruct Hwp as (-> & camera & o & a & H).
  exists h', camera, o, a. split; [reflexivity | exact H].
Qed.

(* ================================================================== *)
(** * The frame range set by an import *)
(* ================================================================== *)

Lemma wp_handle {A} (m : M A) (Q : A -> Host -> Prop) E h :
  wp m Q (fun _ _ => True) h -> (forall e h', E e h') -> wp m Q E h.
Proof. intros H HE. eapply wp_mono; [exact H | auto | auto]. Qed.

Ltac cancelled := apply wp_bind, wp_report, wp_ret; discriminate.

Lemma execute_finished_range tq ev self file h h' :
  Importer.execute tq ev self file h = (h', Ok FINISHED) ->
  exists data frames duration product,
    file = Ok data /\
    py.getitem data "frames" = Ok (JArr frames) /\
    clip_duration frames = Ok duration /\
    py_float_mul duration (Importer.frame_rate self) = Ok product /\
    frame_start h' = 1%Z /\
    frame_end h' = Z.max 1 (Qfloor product).
Proof.
  intros Hrun.
  refine (wp_run _ (fun out h' => out = FINISHED -> _) (fun _ _ => False)
            h h' FINISHED _ Hrun eq_refl).
  clear h' Hrun. unfold Importer.execute. apply wp_try_except.
  apply wp_handle; [|intros e h1; cancelled].
  apply wp_bind, wp_lift. destruct file as [data|]; [|exact I].
  apply wp_bind, wp_lift.
  destruct (py.contains "frames" data) as [has|]; [|exact I].
  apply wp_bind. destruct has.
  - apply wp_bind, wp_lift.
    destruct (py.getitem data "frames") as [v|] eqn:Hv; [|exact I].
    apply wp_ret.
    destruct v as [| | | |frames|]; cbn [py.isinstance_list negb]; try cancelled.
    apply wp_bind, wp_lift. cbn [rbind py.items].
    destruct (length frames =? 0)%nat; [cancelled|].
    apply wp_bind, wp_any; [|auto]. intros [camera|] h1; [|cancelled].
    apply wp_bind.
    eapply wp_mono; [apply _import_animation_range | | auto].
    cbv beta. intros _ h2 (duration & product & Hd & Hp & Hs & He).
    apply wp_stable with (f := range_of).
    + stable_tac.
    + intros out h3 Hr _. exists data, frames, duration, product.
      unfold range_of in Hr. injection Hr as Hs' He'.
      rewrite Hs', He'. auto 10.
    + auto.
  - apply wp_ret. cbn [negb]. cancelled.
Qed.

(** ** Clips that are read without an error *)

Section Valid.
Variable i : nat.
Implicit Types (Q : unit -> Host -> Prop) (E : Exception -> Host -> Prop).

Lemma wp_get_object_valid (Q : Object -> Host -> Prop) E h :
  is_Some (objects h !! i) -> (forall o, Q o h) -> wp (bpy.get_object i) Q E h.
Proof. intros [o Ho] HQ. apply (wp_get_object_at i o); [exact Ho | apply HQ]. Qed.

Lemma wp_update_object_valid f Q E h :
  is_Some (objects h !! i) ->
  (forall h', is_Some (objects h' !! i) -> Q tt h') ->
  wp (bpy.update_object i f) Q E h.
Proof.
  intros [o Ho] HQ. apply (wp_update_object_at i f o); [exact Ho|].
  intros h' Ho'. apply HQ. eauto.
Qed.

Lemma wp_modify_valid g Q E h :
  (forall h0, objects (g h0) = objects h0) ->
  is_Some (objects h !! i) ->
  (forall h', is_Some (objects h' !! i) -> Q tt h') ->
  wp (modify g) Q E h.
Proof. intros Hg Ho HQ. apply wp_modify, HQ. rewrite Hg. exact Ho. Qed.

Lemma wp_keyframe_insert_location_valid n Q E h :
  is_Some (objects h !! i) ->
  (forall h', is_Some (objects h' !! i) -> Q tt h') ->
  wp (bpy.keyframe_insert_location i n) Q E h.
Proof.
  intros [o Ho] HQ. apply (wp_keyframe_insert_location_at i n o); [exact Ho|].
  intros h' ki kh Ho'. apply HQ. eauto.
Qed.

Lemma wp_keyframe_insert_rotation_quaternion_valid n Q E h :
  is_Some (objects h !! i) ->
  (forall h', is_Some (objects h' !! i) -> Q tt h') ->
  wp (bpy.keyframe_insert_rotation_quaternion i n) Q E h.
Proof.
  intros [o Ho] HQ.
  apply (wp_keyframe_insert_rotation_quaternion_at i n o); [exact Ho|].
  intros h' ki kh Ho'. apply HQ. eauto.
Qed.

Lemma wp_frame_set_valid ev n Q E h :
  is_Some (objects h !! i) ->
  (forall h', is_Some (objects h' !! i) -> Q tt h') ->
  wp (bpy.frame_set (total ev) n) Q E h.
Proof.
  intros [o Ho] HQ. apply (wp_frame_set_at i ev n o); [exact Ho|].
  intros h' Ho'. apply HQ. eauto.
Qed.
End Valid.

Ltac valid_step :=
  lazymatch goal with
  | |- wp (bind _ _) _ _ _ => apply wp_bind
  | |- wp (ret _) _ _ _ => apply wp_ret
  | |- wp (gets _) _ _ _ => apply wp_gets
  | H : is_Some (objects ?h !! ?i) |- wp (bpy.get_object ?i) _ _ ?h =>
      apply (wp_get_object_valid i _ _ _ H); intros ?
  | H : is_Some (objects ?h !! ?i) |- wp (bpy.update_object ?i _) _ _ ?h =>
      apply (wp_update_object_valid i _ _ _ _ H); clear dependent h; intros h H
  | H : is_Some (objects ?h !! ?i) |- wp (bpy.keyframe_insert_location ?i _) _ _ ?h =>
      apply (wp_keyframe_insert_location_valid i _ _ _ _ H);
      clear dependent h; intros h H
  | H : is_Some (objects ?h !! ?i)
    |- wp (bpy.keyframe_insert_rotation_quaternion ?i _) _ _ ?h =>
      apply (wp_keyframe_insert_rotation_quaternion_valid i _ _ _ _ H);
      clear dependent h; intros h H
  | H : is_Some (objects ?h !! ?i) |- wp (bpy.frame_set (total _) _) _ _ ?h =>
      apply (wp_frame_set_valid i _ _ _ _ _ H); clear dependent h; intros h H
  | H : is_Some (objects ?h !! ?i) |- wp (modify ?g) _ _ ?h =>
      apply (wp_modify_valid i g _ _ _ ltac:(intros; reflexivity) H);
      clear dependent h; intros h H
  end.

Lemma readable_last self frames f :
  forallb (readable self) frames = true -> last frames = Some f ->
  readable self f = true.
Proof.
  intros Hall Hl. rewrite forallb_forall in Hall. apply Hall.
  apply list_elem_of_In. eapply last_Some_elem_of, Hl.
Qed.

Section Finishes.
Variable to_quaternion : Euler -> Quaternion.
Variable ev : Action -> Z -> option Vector * option Quaternion.
Variable self : Importer.Props.
Variable camera : nat.

Lemma import_frame_finishes initial_pos initial_rot q0 p0 frame_data h :
  readable self frame_data = true ->
  is_Some (objects h !! camera) ->
  wp (Importer.import_frame (total ev) self camera initial_pos initial_rot q0 p0
        frame_data)
     (fun _ h' => is_Some (objects h' !! camera)) (fun _ _ => False) h.
Proof.
  unfold readable. intros Hr Hc.
  apply andb_prop in Hr as [Hr Hp]. apply andb_prop in Hr as [Ht Hq].
  unfold Importer.import_frame.
  apply wp_bind, wp_lift.
  destruct (py.getitem frame_data "t") as [t|]; [|discriminate Ht]. cbn [rbind] in *.
  destruct (py.as_float t) as [time|]; [|discriminate Ht]. cbn [rbind] in *.
  apply wp_bind, wp_lift.
  destruct (Importer.frame_number self time) as [n|]; [|discriminate Ht].
  apply wp_bind, wp_lift.
  destruct (Importer.parse_quaternion frame_data) as [q|]; [|discriminate Hq].
  apply wp_bind, wp_lift.
  destruct (Importer.parse_p frame_data) as [p|]; [|discriminate Hp].
  destruct (Importer.final self initial_pos initial_rot q0 p0 p q) as [pf qf].
  repeat valid_step. exact Hc.
Qed.

Lemma _import_animation_finishes frames metadata h :
  readable_clip self frames = true ->
  is_object metadata ->
  is_Some (objects h !! camera) ->
  wp (Importer._import_animation to_quaternion (total ev) self camera frames metadata)
     (fun _ h' => is_Some (objects h' !! camera)) (fun _ _ => False) h.
Proof.
  unfold readable_clip. intros Hr [items ->] Hc.
  apply andb_prop in Hr as [Hall Hp0].
  destruct frames as [|first rest] eqn:Hframes; [discriminate Hp0|].
  rewrite <- Hframes in *.
  assert (exists l, last frames = Some l) as [l Hl].
  { destruct (last frames) eqn:E; [eauto|].
    apply last_None in E. congruence. }
  pose proof (readable_last _ _ _ Hall Hl) as Hread.
  assert (readable self first = true) as Hfirst.
  { rewrite Hframes in Hall. cbn [forallb] in Hall.
    apply andb_prop in Hall as [H _]. exact H. }
  unfold Importer._import_animation. rewrite Hl.
  unfold readable in Hread, Hfirst.
  apply andb_prop in Hread as [Hread _]. apply andb_prop in Hread as [Ht _].
  apply andb_prop in Hfirst as [Hfirst _]. apply andb_prop in Hfirst as [_ Hq0].
  apply wp_bind, wp_lift.
  destruct (py.getitem l "t") as [t|]; [|discriminate Ht]. cbn [rbind] in Ht.
  apply wp_bind, wp_lift.
  destruct (py.as_float t) as [duration|]; [|discriminate Ht]. cbn [rbind] in Ht.
  apply wp_bind, wp_lift. unfold Importer.frame_number in Ht.
  destruct (py_float_mul duration (Importer.frame_rate self)) as [product|];
    [|discriminate Ht].
  cbn [rbind]. repeat valid_step.
  assert (forall initial_pos initial_rot h0,
            is_Some (objects h0 !! camera) ->
            wp (bpy.update_object camera (with_rotation_mode QUATERNION) ;;
                bpy.update_object camera
                  (fun o => match animation_data o with
                            | Some _ => with_animation_data None o
                            | None => o
                            end) ;;
                let action_name :=
                  "WebXR_Anim_" +:+ pathlib.stem (Importer.filepath self) in
                bpy.update_object camera
                  (with_animation_data
                     (Some (mkAnimData (Some (mkAction action_name ∅ ∅))))) ;;
                first_frame <- lift
                  (match frames with f :: _ => Ok f | [] => Raise IndexError end) ;;
                q0 <- lift (Importer.parse_quaternion first_frame) ;;
                p0 <- lift (Importer.parse_p0 first_frame) ;;
                for_each frames
                  (Importer.import_frame (total ev) self camera initial_pos
                     initial_rot q0 p0) ;;
                bpy.update_object camera Importer.set_interpolation ;;
                bpy.frame_set (total ev) 1 ;;
                bpy.update_object camera
                  (with_id_prop "webxr_animation_source"
                     (JStr (pathlib.name (Importer.filepath self)))) ;;
                bpy.update_object camera
                  (with_id_prop "webxr_animation_duration" t) ;;
                bpy.update_object camera
                  (with_id_prop "webxr_animation_frames"
                     (JNum (inject_Z (Z.of_nat (length frames))))) ;;
                has <- lift (py.contains "referenceSpaceType" (JObj items)) ;;
                if has then
                  v <- lift (py.getitem (JObj items) "referenceSpaceType") ;;
                  bpy.update_object camera (with_id_prop "webxr_reference_space" v)
                else ret tt)
               (fun _ h' => is_Some (objects h' !! camera)) (fun _ _ => False) h0)
    as Hrest.
  { intros initial_pos initial_rot h0 H0. cbv zeta.
    repeat valid_step. apply wp_lift.
    assert (match frames with f :: _ => Ok f | [] => Raise IndexError end = Ok first)
      as -> by (rewrite Hframes; reflexivity).
    apply wp_bind, wp_lift.
    destruct (Importer.parse_quaternion first) as [q0|]; [|discriminate Hq0].
    apply wp_bind, wp_lift.
    destruct (Importer.parse_p0 first) as [p0|]; [|discriminate Hp0].
    apply wp_bind.
    eapply wp_mono;
      [apply (wp_for_each (fun h1 => is_Some (objects h1 !! camera))) | | ].
    - exact H0.
    - intros x h1 Hx H1. apply import_frame_finishes; [|exact H1].
      rewrite forallb_forall in Hall. apply Hall, Hx.
    - cbv beta. intros _ h1 H1. repeat valid_step.
      apply wp_lift. cbn [py.contains].
      destruct (py.assoc "referenceSpaceType" items) as [v|] eqn:Hv.
      + apply wp_bind, wp_lift. cbn [py.getitem]. rewrite Hv.
        valid_step. exact H1.
      + apply wp_ret. exact H1.
    - intros e h1 []. }
  destruct (Importer.apply_deltas self).
  - apply wp_bind. valid_step. apply wp_ret, Hrest. exact Hc.
  - apply wp_ret, Hrest. exact Hc.
Qed.
End Finishes.

(** A clip that is readable is imported: with a camera of its own and a
    host that evaluates animation without an error, the run finishes. *)
Lemma import_readable_finishes tq ev self data frames h :
  py.getitem data "frames" = Ok (JArr frames) ->
  readable_clip self frames = true ->
  Importer.create_camera self = true ->
  Importer.use_existing_camera self = false ->
  exists h', Importer.execute tq (total ev) self (Ok data) h = (h', Ok FINISHED).
Proof.
  intros Hget Hread Hcreate Huse.
  assert (wp (Importer.execute tq (total ev) self (Ok data))
            (fun out _ => out = FINISHED) (fun _ _ => False) h) as Hwp.
  { destruct data as [| | | | |items]; try discriminate Hget.
    assert (frames <> []) as Hne.
    { unfold readable_clip in Hread. apply andb_prop in Hread as [_ H].
      destruct frames; [discriminate H | discriminate]. }
    unfold Importer.execute. apply wp_try_except.
    apply wp_bind, wp_lift. apply wp_bind, wp_lift.
    cbn [py.getitem] in Hget. cbn [py.contains].
    destruct (py.assoc "frames" items) as [v|] eqn:Hv; [|discriminate Hget].
    injection Hget as ->.
    apply wp_bind. apply wp_bind, wp_lift. cbn [py.getitem]. rewrite Hv.
    apply wp_ret. cbn [py.isinstance_list negb].
    apply wp_bind, wp_lift. cbn [rbind py.items].
    destruct (length frames =? 0)%nat eqn:Hlen.
    { apply Nat.eqb_eq in Hlen. destruct frames; [congruence | discriminate Hlen]. }
    apply wp_bind. unfold Importer._get_or_create_camera.
    rewrite Hcreate, Huse. cbn [andb orb].
    apply wp_bind, wp_gets. apply wp_bind.
    apply wp_new_camera_at. intros h1 camera Hcam.
    assert (is_Some (objects h1 !! camera)) as Hc by eauto.
    clear Hcam. repeat valid_step.
    eapply wp_mono;
      [apply (_import_animation_finishes tq ev self camera frames (JObj items) h1
                Hread) | | ].
    - eexists. reflexivity.
    - exact Hc.
    - cbv beta. intros _ h2 H2. repeat valid_step.
      apply wp_report, wp_ret. reflexivity.
    - intros e h2 []. }
  unfold wp in Hwp.
  destruct (Importer.execute tq (total ev) self (Ok data) h) as [h' [out|e]];
    [|destruct Hwp].
  subst out. exists h'. reflexivity.
Qed.

(** The products of Python at 30 frames a second: [4.1 * 30] is the
    double just below 123 and is truncated to 122; [0.7 * 30] is 21,
    though the double of 0.7 lies below seven tenths; a product beyond the
    doubles raises. *)
Lemma py_float_mul_examples :
  py_float_mul 4.1 30 = Ok (8655355533852671 # 70368744177664) /\
  Importer.frame_number (Importer.defaults "walk.json") 4.1 = Ok 123%Z /\
  (float.binary64 0.7 * 30 < 21)%Q /\
  py_float_mul 0.7 30 = Ok 21%Q /\
  Importer.frame_number (Importer.defaults "walk.json") 0.7 = Ok 22%Z /\
  py_float_mul (2 ^ 1000) (2 ^ 24) = Raise OverflowError.
Proof. repeat split; vm_compute; reflexivity. Qed.

(** A zero time gives a zero product, whatever the frame rate. *)
Lemma py_float_mul_zero (d r v : Q) :
  (d == 0)%Q -> py_float_mul d r = Ok v -> Qfloor v = 0%Z.
Proof.
  intros Hd Hv. apply py_float_mul_value in Hv. subst v.
  assert (float.binary64 d = 0%Q) as ->.
  { unfold float.binary64, float.round.
    apply Qeq_bool_iff in Hd. rewrite Hd. reflexivity. }
  unfold float.binary64 at 1, float.round.
  assert (Qeq_bool (0 * float.binary64 r) 0 = true) as ->
    by (apply Qeq_bool_iff; ring).
  reflexivity.
Qed.

(** C6. Whenever a clip is imported, the scene frame range is
    [1, max(1, floor(duration * frame_rate))]: the duration is read from
    the last frame, and the product is the one of Python floats, the
    double nearest to the product of the two doubles; the end of the range
    is therefore at least 1.  A clip of any number of readable frames,
    a single one as well, is imported without an error by the operator
    with a camera of its own, and a clip of zero duration gets the range
    [1, 1]. *)
Theorem import_frame_range :
  (forall tq ev self file h h',
      Importer.execute tq ev self file h = (h', Ok FINISHED) ->
      exists data frames duration,
        file = Ok data /\
        py.getitem data "frames" = Ok (JArr frames) /\
        clip_duration frames = Ok duration /\
        frame_start h' = 1%Z /\
        frame_end h' =
          Z.max 1 (Qfloor (float.binary64
                             (float.binary64 duration *
                              float.binary64 (Importer.frame_rate self)))) /\
        (1 <= frame_end h')%Z) /\
  (forall tq ev self data frames h,
      py.getitem data "frames" = Ok (JArr frames) ->
      readable_clip self frames = true ->
      Importer.create_camera self = true ->
      Importer.use_existing_camera self = false ->
      exists h',
        Importer.execute tq (total ev) self (Ok data) h = (h', Ok FINISHED) /\
        (forall duration,
            clip_duration frames = Ok duration -> (duration == 0)%Q ->
            range_of h' = (1, 1)%Z)).
Proof.
  split.
  - intros tq ev self file h h' Hrun.
    destruct (execute_finished_range _ _ _ _ _ _ Hrun)
      as (data & frames & duration & product & Hf & Hg & Hd & Hp & Hs & He).
    exists data, frames, duration.
    apply py_float_mul_value in Hp. subst product.
    repeat (split; [assumption|]). lia.
  - intros tq ev self data frames h Hget Hread Hcreate Huse.
    destruct (import_readable_finishes tq ev self data frames h Hget Hread Hcreate
                Huse) as (h' & Hrun).
    exists h'. split; [exact Hrun|].
    intros duration Hd Hz.
    destruct (execute_finished_range _ _ _ _ _ _ Hrun)
      as (data' & frames' & duration' & product & Hf & Hg & Hd' & Hp & Hs & He).
    injection Hf as <-. rewrite Hget in Hg. injection Hg as <-.
    rewrite Hd in Hd'. injection Hd' as <-.
    unfold range_of. rewrite Hs, He, (py_float_mul_zero _ _ _ Hz Hp). reflexivity.
Qed.

Lemma import_frame_range_witness :
  let ev : Action -> Z -> option Vector * option Quaternion :=
    fun _ _ => (None, None) in
  let self := Importer.defaults "walk.json" in
  let h := mkHost [] None None [] 1 250 1 24 BEZIER AUTO_CLAMPED [4; 2; 0]%Z [] in
  (let h' := fst (Importer.execute (fun _ => mathutils.identity) (total ev) self
                    (Ok (clip_ending_at 4.1)) h) in
   frame_start h' = 1%Z /\ frame_end h' = 122%Z) /\
  (exists h',
      Importer.execute (fun _ => mathutils.identity) (total ev) self
        (Ok single_frame_clip) h = (h', Ok FINISHED) /\
      range_of h' = (1, 1)%Z).
Proof.
  intros ev self h. split.
  - intros h'.
    destruct (proj1 import_frame_range (fun _ => mathutils.identity) (total ev) self
                (Ok (clip_ending_at 4.1)) h h')
      as (data & frames & duration & Hf & Hg & Hd & Hs & He & _).
    + vm_compute. reflexivity.
    + injection Hf as <-. injection Hg as <-. injection Hd as <-.
      split; [exact Hs|]. rewrite He. vm_compute. reflexivity.
  - destruct (proj2 import_frame_range (fun _ => mathutils.identity) ev self
                single_frame_clip
                [JObj [("t", JNum 0); ("q", identity_q)]] h)
      as (h' & Hrun & Hz).
    + reflexivity.
    + vm_compute. reflexivity.
    + reflexivity.
    + reflexivity.
    + exists h'. split; [exact Hrun|]. apply (Hz 0%Q); reflexivity.
Defined.

(* ================================================================== *)
(** * Validation of the decoded file *)
(* ================================================================== *)

Ltac run_execute :=
  unfold cancelled_with, Importer.execute, try_except, bind, lift, report, modify, ret;
  cbn [py.contains py.getitem rbind py.isinstance_list negb py.items length Nat.eqb].

(** C7. A decoded document without a [frames] list, or with an empty one,
    ends the import with the outcome CANCELLED and one error report, no
    exception leaves [execute], and nothing else in the host changes (no
    camera is created and no keyframe is written).  For a JSON object the
    report is the missing-frames message, and for an empty list the
    no-frames message. *)
Theorem import_rejects_missing_frames tq ev self data h :
  (~ has_frames_array data ->
     exists msg,
       cancelled_with msg h (Importer.execute tq ev self (Ok data) h) /\
       (is_object data -> msg = Importer.MISSING_FRAMES) /\
       (msg = Importer.MISSING_FRAMES \/
        exists e, msg = "Import failed: " +:+ exc_str e)) /\
  (py.getitem data "frames" = Ok (JArr []) ->
     cancelled_with Importer.EMPTY_FRAMES h (Importer.execute tq ev self (Ok data) h)).
Proof.
  split.
  - intros Hno. destruct data as [| b | x | s | l | m].
    + eexists; split; [run_execute; reflexivity|].
      split; [intros [? [=]] | right; eexists; reflexivity].
    + eexists; split; [run_execute; reflexivity|].
      split; [intros [? [=]] | right; eexists; reflexivity].
    + eexists; split; [run_execute; reflexivity|].
      split; [intros [? [=]] | right; eexists; reflexivity].
    + destruct (String.index 0 "frames" s) eqn:Hi.
      * eexists; split; [run_execute; rewrite Hi; reflexivity|].
        split; [intros [? [=]] | right; eexists; reflexivity].
      * eexists; split; [run_execute; rewrite Hi; reflexivity|].
        split; [intros [? [=]] | left; reflexivity].
    + destruct (existsb (fun x => match x with JStr s => String.eqb s "frames"
                                   | _ => false end) l) eqn:Hi.
      * eexists; split; [run_execute; rewrite Hi; reflexivity|].
        split; [intros [? [=]] | right; eexists; reflexivity].
      * eexists; split; [run_execute; rewrite Hi; reflexivity|].
        split; [intros [? [=]] | left; reflexivity].
    + exists Importer.MISSING_FRAMES. split; [|split; [reflexivity | left; reflexivity]].
      run_execute. destruct (py.assoc "frames" m) as [v|] eqn:Hv; [|reflexivity].
      destruct v; try reflexivity.
      exfalso. apply Hno. eexists. cbn [py.getitem]. rewrite Hv. reflexivity.
  - intros Hget. destruct data as [| b | x | s | l | m]; try discriminate Hget.
    cbn [py.getitem] in Hget.
    destruct (py.assoc "frames" m) as [v|] eqn:Hv; [|discriminate Hget].
    injection Hget as ->.
    run_execute. rewrite Hv. reflexivity.
Qed.

Lemma import_rejects_missing_frames_witness :
  let h := mkHost [] None None [] 1 250 1 24 BEZIER AUTO_CLAMPED [4; 2; 0]%Z [] in
  let ev : Action -> Z -> Result (option Vector * option Quaternion) :=
    fun _ _ => Ok (None, None) in
  let run data :=
    Importer.execute (fun _ => mathutils.identity) ev (Importer.defaults "a.json")
      (Ok data) h in
  (exists msg, cancelled_with msg h (run (JObj [("metadata", JObj [])])) /\
               msg = Importer.MISSING_FRAMES) /\
  cancelled_with Importer.EMPTY_FRAMES h (run (JObj [("frames", JArr [])])).
Proof.
  intros h ev run. split.
  - destruct (proj1 (import_rejects_missing_frames (fun _ => mathutils.identity) ev
                       (Importer.defaults "a.json") (JObj [("metadata", JObj [])]) h))
      as (msg & Hrun & Hobj & _).
    + intros [frames Hf]. discriminate Hf.
    + exists msg. split; [exact Hrun|]. apply Hobj. eexists. reflexivity.
  - apply (proj2 (import_rejects_missing_frames (fun _ => mathutils.identity) ev
                    (Importer.defaults "a.json") (JObj [("frames", JArr [])]) h)).
    reflexivity.
Defined.

(* ================================================================== *)
(** * Resolving the target camera *)
(* ================================================================== *)

Lemma import_frame_stable {C} (f : Host -> C) evaluate self camera initial_pos
    initial_rot q0 p0 frame_data :
  (forall l h, f (with_objects l h) = f h) ->
  (forall n h, f (with_frame_current n h) = f h) ->
  stable f
    (Importer.import_frame evaluate self camera initial_pos initial_rot q0 p0
       frame_data).
Proof.
  intros Hobj Hcur. unfold Importer.import_frame.
  repeat
    lazymatch goal with
    | |- stable _ (lift _) => apply stable_lift
    | |- stable _ (bpy.update_object _ _) => apply stable_update_object; exact Hobj
    | |- stable _ (bpy.keyframe_insert_location _ _) =>
        apply stable_keyframe_insert_location; exact Hobj
    | |- stable _ (bpy.keyframe_insert_rotation_quaternion _ _) =>
        apply stable_keyframe_insert_rotation_quaternion; exact Hobj
    | |- stable _ (bpy.frame_set _ _) =>
        apply stable_frame_set; [exact Hobj | exact Hcur]
    | |- stable _ (bind _ _) => apply stable_bind; [|intros ?]
    | |- stable _ (match ?x with _ => _ end) => destruct x
    end.
Qed.

Lemma _import_animation_reports_stable tq evaluate self camera frames metadata :
  stable reports
    (Importer._import_animation tq evaluate self camera frames metadata).
Proof.
  unfold Importer._import_animation.
  stable_tac; apply import_frame_stable; intros; reflexivity.
Qed.

Lemma _get_or_create_camera_cases self h :
  match Importer._get_or_create_camera self h with
  | (h', Ok (Some c)) =>
      scene_camera h' = Some c /\
      ((h' = h /\ Importer.use_existing_camera self = true) \/
       (c = length (objects h) /\
        exists o, objects h' = objects h ++ [o] /\ type o = CAMERA))
  | (h', Ok None) => h' = h /\ no_target self h
  | (_, Raise _) => False
  end.
Proof.
  unfold Importer._get_or_create_camera, no_target, bind, gets, ret, modify,
    bpy.new_camera.
  destruct (Importer.use_existing_camera self), (Importer.create_camera self),
    (scene_camera h) as [c|] eqn:Hc; cbn;
    try (rewrite Hc);
    try (split; [reflexivity|]);
    try (left; split; [reflexivity|reflexivity]);
    try (right; split; [reflexivity|]; eexists; split; reflexivity).
  repeat split; eauto.
Qed.

Lemma _get_or_create_camera_reports_stable self :
  stable reports (Importer._get_or_create_camera self).
Proof. unfold Importer._get_or_create_camera. stable_tac. Qed.

Lemma target_unavailable_distinct e :
  ERROR ("Import failed: " +:+ exc_str e) <> ERROR Importer.TARGET_UNAVAILABLE.
Proof. cbn. discriminate. Qed.

(** Every run of [execute] adds exactly one report, and the
    target-unavailable report is added only when no camera is resolved. *)
Lemma execute_report tq ev self file h :
  wp (Importer.execute tq ev self file)
     (fun _ h' => exists r, reports h' = reports h ++ [r] /\
                  (r = ERROR Importer.TARGET_UNAVAILABLE -> no_target self h))
     (fun _ _ => False) h.
Proof.
  unfold Importer.execute. apply wp_try_except.
  assert (forall e h1, reports h1 = reports h ->
            wp (report (ERROR ("Import failed: " +:+ exc_str e));; ret CANCELLED)
              (fun _ h' => exists r, reports h' = reports h ++ [r] /\
                  (r = ERROR Importer.TARGET_UNAVAILABLE -> no_target self h))
              (fun _ _ => False) h1) as Hhandler.
  { intros e h1 Hr. apply wp_bind, wp_report, wp_ret. cbn [reports with_reports].
    eexists. split; [rewrite Hr; reflexivity|].
    intros Heq. destruct (target_unavailable_distinct e Heq). }
  assert (forall msg h1, reports h1 = reports h ->
            ERROR msg <> ERROR Importer.TARGET_UNAVAILABLE ->
            wp (report (ERROR msg);; ret CANCELLED)
              (fun _ h' => exists r, reports h' = reports h ++ [r] /\
                  (r = ERROR Importer.TARGET_UNAVAILABLE -> no_target self h))
              (fun e h' => reports h' = reports h) h1) as Hcancel.
  { intros msg h1 Hr Hne. apply wp_bind, wp_report, wp_ret. cbn [reports with_reports].
    eexists. split; [rewrite Hr; reflexivity|].
    intros Heq. destruct (Hne Heq). }
  eapply wp_mono with (E := fun _ h' => reports h' = reports h);
    [| intros a h' H; exact H | intros e h'; apply Hhandler].
  apply wp_bind, wp_lift. destruct file as [data|]; [|reflexivity].
  apply wp_bind, wp_lift.
  destruct (py.contains "frames" data) as [has|]; [|reflexivity].
  assert (wp (report (ERROR Importer.MISSING_FRAMES);; ret CANCELLED)
            (fun _ h' => exists r, reports h' = reports h ++ [r] /\
                (r = ERROR Importer.TARGET_UNAVAILABLE -> no_target self h))
            (fun e h' => reports h' = reports h) h) as Hmissing.
  { apply Hcancel; [reflexivity | discriminate]. }
  apply wp_bind. destruct has.
  - apply wp_bind, wp_lift.
    destruct (py.getitem data "frames") as [v|] eqn:Hv; [|reflexivity].
    apply wp_ret.
    destruct v as [| | | |frames|]; cbn [py.isinstance_list negb]; try exact Hmissing.
    apply wp_bind, wp_lift. cbn [rbind py.items].
    destruct (length frames =? 0)%nat.
    { apply Hcancel; [reflexivity | discriminate]. }
    apply wp_bind. unfold wp at 1.
    pose proof (_get_or_create_camera_cases self h) as Hcam.
    pose proof (_get_or_create_camera_reports_stable self h) as Hr1.
    destruct (Importer._get_or_create_camera self h) as [h1 [[c|]|e]];
      [| |destruct Hcam].
    + cbn [fst] in Hr1. apply wp_bind.
      apply wp_stable with (f := reports);
        [apply _import_animation_reports_stable | | intros e h2 ->; exact Hr1].
      intros _ h2 Hr2.
      apply wp_bind, wp_modify. apply wp_bind.
      apply wp_stable with (f := reports);
        [apply stable_update_object; intros; reflexivity | | ].
      * intros _ h3 Hr3. apply wp_bind, wp_report, wp_ret.
        cbn [reports with_reports]. eexists. split.
        { rewrite Hr3. cbn [reports with_active_object]. rewrite Hr2, Hr1. reflexivity. }
        discriminate.
      * intros e h3 Hr3. rewrite Hr3. cbn [reports with_active_object].
        rewrite Hr2. exact Hr1.
    + destruct Hcam as (-> & Hno).
      apply wp_bind, wp_report, wp_ret. cbn [reports with_reports].
      eexists. split; [reflexivity|]. intros _. exact Hno.
  - apply wp_ret. cbn [negb]. exact Hmissing.
Qed.

(** C10. With [create_camera] set, [_get_or_create_camera] always returns a
    camera, never None: the scene's camera when it is to be used and there
    is one, a newly created camera object otherwise; either way it is the
    scene's camera afterwards.  None is returned, and [execute] reports that
    no camera could be resolved, only when [create_camera] is off, the scene
    has a camera and [use_existing_camera] is off. *)
Theorem camera_resolution self h :
  (Importer.create_camera self = true ->
     exists h' c,
       Importer._get_or_create_camera self h = (h', Ok (Some c)) /\
       scene_camera h' = Some c /\
       ((h' = h /\ Importer.use_existing_camera self = true) \/
        (c = length (objects h) /\
         exists o, objects h' = objects h ++ [o] /\ type o = CAMERA))) /\
  (forall h', Importer._get_or_create_camera self h = (h', Ok None) ->
     no_target self h) /\
  (forall tq ev file h' out,
     Importer.execute tq ev self file h = (h', out) ->
     reports h' = reports h ++ [ERROR Importer.TARGET_UNAVAILABLE] ->
     no_target self h).
Proof.
  pose proof (_get_or_create_camera_cases self h) as Hcam.
  split; [|split].
  - intros Hcreate.
    destruct (Importer._get_or_create_camera self h) as [h' [[c|]|e]].
    + exists h', c. split; [reflexivity | exact Hcam].
    + destruct Hcam as (_ & Hno & _). congruence.
    + destruct Hcam.
  - intros h' Hrun. rewrite Hrun in Hcam. apply Hcam.
  - intros tq ev file h' out Hrun Hrep.
    pose proof (execute_report tq ev self file h) as Hwp.
    unfold wp in Hwp. rewrite Hrun in Hwp.
    destruct out as [out|e]; [|destruct Hwp].
    destruct Hwp as (r & Hr & Hno). apply Hno.
    rewrite Hr in Hrep. apply app_inv_head in Hrep. congruence.
Qed.

Lemma camera_resolution_witness :
  let h := mkHost [] None None [] 1 250 1 24 BEZIER AUTO_CLAMPED [4; 2; 0]%Z [] in
  exists h', Importer._get_or_create_camera (Importer.defaults "a.json") h
             = (h', Ok (Some 0%nat)) /\ scene_camera h' = Some 0%nat.
Proof.
  intros h.
  destruct (proj1 (camera_resolution (Importer.defaults "a.json") h))
    as (h' & c & Hrun & Hcam & _).
  - reflexivity.
  - exists h'. vm_compute in Hrun. injection Hrun as <- <-.
    split; reflexivity.
Defined.

(* ================================================================== *)
(** * The export pipeline and the host state it borrows *)
(* ================================================================== *)

Section ExportState.
Variable evaluate : Action -> Z -> Result (option Vector * option Quaternion).
Variable self : Exporter.Props.

Lemma evaluate_objects_modes n l l' :
  bpy.evaluate_objects evaluate n l = Ok l' ->
  rotation_mode <$> l' = rotation_mode <$> l.
Proof.
  revert l'. induction l as [|o l IH]; intros l'; cbn [bpy.evaluate_objects].
  - intros [= <-]. reflexivity.
  - destruct (bpy.evaluate_object evaluate n o) as [o'|] eqn:Ho; [|discriminate].
    destruct (bpy.evaluate_objects evaluate n l) as [r|]; [|discriminate].
    intros [= <-]. cbn [fmap list_fmap]. f_equal; [|apply IH; reflexivity].
    unfold bpy.evaluate_object in Ho.
    destruct (animation_data o) as [[[a|]]|]; try (injection Ho as <-; reflexivity).
    destruct (evaluate a n); [injection Ho as <-; reflexivity | discriminate].
Qed.

Lemma frame_set_modes n : stable rotation_modes (bpy.frame_set evaluate n).
Proof.
  intros h. unfold bpy.frame_set, rotation_modes.
  destruct (bpy.evaluate_objects evaluate n (objects (with_frame_current n h)))
    as [objs|] eqn:He; cbn [fst objects with_objects with_frame_current].
  - apply evaluate_objects_modes in He. exact He.
  - reflexivity.
Qed.

(** After a [frame_set] that returns, the playback position is the
    frame asked for. *)
Lemma wp_frame_set n (Q : unit -> Host -> Prop) E h :
  (forall h', frame_current h' = n -> rotation_modes h' = rotation_modes h -> Q tt h') ->
  (forall e h', E e h') ->
  wp (bpy.frame_set evaluate n) Q E h.
Proof.
  intros HQ HE. pose proof (frame_set_modes n h) as Hm.
  unfold wp. unfold bpy.frame_set in *.
  destruct (bpy.evaluate_objects evaluate n (objects (with_frame_current n h)));
    [|apply HE].
  apply HQ; [reflexivity | exact Hm].
Qed.

Lemma wp_set_rotation_mode i m o (Q : unit -> Host -> Prop) E h :
  objects h !! i = Some o ->
  (forall h', frame_current h' = frame_current h ->
              rotation_modes h' = <[i := m]> (rotation_modes h) ->
              (exists o', objects h' !! i = Some o') ->
              Q tt h') ->
  wp (bpy.update_object i (with_rotation_mode m)) Q E h.
Proof.
  intros Ho HQ. apply (wp_update_object_exact i _ o); [exact Ho|].
  apply HQ; [reflexivity | | ].
  - unfold rotation_modes. cbn [objects with_objects].
    rewrite list_fmap_insert. reflexivity.
  - eexists. cbn [objects with_objects].
    apply list_lookup_insert_eq. eapply lookup_lt_Some, Ho.
Qed.

Lemma export_frame_modes camera fps frame_num :
  stable rotation_modes (Exporter.export_frame evaluate self camera fps frame_num).
Proof.
  unfold Exporter.export_frame.
  repeat
    lazymatch goal with
    | |- stable _ (bpy.frame_set _ _) => apply frame_set_modes
    | _ => stable_step
    end.
Qed.

Lemma export_frames_modes camera fps frames_to_sample exported_frames :
  stable rotation_modes
    (Exporter.export_frames evaluate self camera fps frames_to_sample exported_frames).
Proof.
  revert exported_frames.
  induction frames_to_sample as [|n l IH]; intros acc; cbn [Exporter.export_frames].
  - apply stable_ret.
  - apply stable_bind; [apply export_frame_modes | intros ?; apply IH].
Qed.

Lemma _get_frames_to_sample_pure camera :
  stable (fun h => h) (Exporter._get_frames_to_sample self camera).
Proof.
  unfold Exporter._get_frames_to_sample.
  destruct (Exporter.sample_mode self); stable_tac.
Qed.

Lemma _get_camera_pure : stable (fun h => h) (Exporter._get_camera self).
Proof. unfold Exporter._get_camera. stable_tac. Qed.

(** A run of [_export_animation] that returns has put the playback
    position and the rotation modes back. *)
Lemma _export_animation_restores camera h :
  wp (Exporter._export_animation evaluate self camera)
     (fun _ h' => borrowed h' = borrowed h) (fun _ _ => True) h.
Proof.
  unfold Exporter._export_animation.
  apply wp_bind.
  apply wp_stable with (f := fun h => h);
    [apply _get_frames_to_sample_pure | | auto].
  intros frames_to_sample ? ->.
  apply wp_bind, wp_gets. apply wp_bind.
  unfold wp at 1, bpy.get_object.
  destruct (objects h !! camera) as [o|] eqn:Ho; [|exact I].
  assert (rotation_modes h !! camera = Some (rotation_mode o)) as Hmode.
  { unfold rotation_modes. rewrite list_lookup_fmap, Ho. reflexivity. }
  destruct (bool_decide (rotation_mode o = QUATERNION)) eqn:Hq; cbn [negb].
  - (* already a quaternion: nothing to convert or to restore *)
    apply wp_bind, wp_ret. apply wp_bind, wp_gets. apply wp_bind.
    apply wp_stable with (f := rotation_modes);
      [apply export_frames_modes | | auto].
    intros exported h1 Hm1. apply wp_bind.
    apply wp_frame_set; [|auto]. intros h2 Hf2 Hm2.
    apply wp_bind, wp_ret. apply wp_bind.
    apply wp_stable with (f := fun h => h); [apply stable_get_object | | auto].
    intros o2 ? ->. repeat (apply wp_bind, wp_gets). apply wp_ret.
    unfold borrowed. rewrite Hf2, Hm2, Hm1. reflexivity.
  - (* converted for the sampling, restored after it *)
    apply wp_bind.
    apply (wp_set_rotation_mode camera QUATERNION o); [exact Ho|].
    intros h0 Hf0 Hm0 _.
    apply wp_bind, wp_gets. apply wp_bind.
    apply wp_stable with (f := rotation_modes);
      [apply export_frames_modes | | auto].
    intros exported h1 Hm1. apply wp_bind.
    apply wp_frame_set; [|auto]. intros h2 Hf2 Hm2.
    assert (exists o2, objects h2 !! camera = Some o2) as (o2 & Ho2).
    { apply lookup_lt_is_Some.
      assert (length (rotation_modes h2) = length (rotation_modes h)) as Hlen.
      { rewrite Hm2, Hm1, Hm0. apply length_insert. }
      unfold rotation_modes in Hlen. rewrite !length_fmap in Hlen.
      rewrite Hlen. eapply lookup_lt_Some, Ho. }
    apply wp_bind.
    apply (wp_set_rotation_mode camera (rotation_mode o) o2); [exact Ho2|].
    intros h3 Hf3 Hm3 _. apply wp_bind.
    apply wp_stable with (f := fun h => h); [apply stable_get_object | | auto].
    intros o3 ? ->. repeat (apply wp_bind, wp_gets). apply wp_ret.
    unfold borrowed. rewrite Hf3, Hf2, Hm3, Hm2, Hm1, Hm0.
    rewrite list_insert_insert_eq, list_insert_id by exact Hmode. reflexivity.
Qed.
End ExportState.

Lemma export_execute_restores evaluate self write h :
  wp (Exporter.execute evaluate self write)
     (fun out h' => fst out = FINISHED -> borrowed h' = borrowed h)
     (fun _ _ => False) h.
Proof.
  unfold Exporter.execute. apply wp_try_except.
  apply wp_handle; [|intros e h1; apply wp_bind, wp_report, wp_ret; discriminate].
  apply wp_bind.
  apply wp_stable with (f := fun h => h); [apply _get_camera_pure | | auto].
  intros [camera|] ? ->; [|apply wp_bind, wp_report, wp_ret; discriminate].
  apply wp_bind. unfold wp at 1, bpy.get_object.
  destruct (objects h !! camera) as [o|]; [|exact I].
  destruct (animation_data o) as [[[a|]]|];
    try (apply wp_bind, wp_report, wp_ret; discriminate).
  apply wp_bind.
  eapply wp_mono; [apply _export_animation_restores | | auto].
  cbv beta. intros doc h1 Hb.
  apply wp_bind, wp_lift. destruct (write doc); [|exact I].
  apply wp_bind, wp_lift.
  destruct (v <~ py.getitem doc "frames" ;; Ok (length (py.items v))); [|exact I].
  apply wp_bind, wp_report, wp_ret. intros _. exact Hb.
Qed.

(** C2, as the code has it.  Every run of the export that finishes
    successfully leaves the playback position and the rotation mode of the
    camera (of every object) as they were before it started. *)
Theorem export_restores_state_on_success evaluate self write h h' doc :
  Exporter.execute evaluate self write h = (h', Ok (FINISHED, doc)) ->
  frame_current h' = frame_current h /\
  rotation_modes h' = rotation_modes h /\
  restores_state (Exporter.execute evaluate self write h) h.
Proof.
  intros Hrun.
  pose proof (wp_run _ _ _ _ _ _ (export_execute_restores evaluate self write h) Hrun
                eq_refl) as Hb.
  unfold restores_state. rewrite Hrun. cbn [fst].
  pose proof Hb as Hb'. unfold borrowed in Hb'. injection Hb' as Hf Hm.
  split; [exact Hf | split; [exact Hm | exact Hb]].
Qed.

Lemma export_restores_state_on_success_witness :
  let run := Exporter.execute steady (Exporter.defaults "out.json") (fun _ => Ok tt)
               euler_camera_scene in
  frame_current (fst run) = 10%Z /\ rotation_modes (fst run) = [XYZ].
Proof.
  intros run.
  destruct (export_restores_state_on_success steady (Exporter.defaults "out.json")
              (fun _ => Ok tt) euler_camera_scene (fst run)
              (snd (match snd run with Ok v => v | Raise _ => (CANCELLED, None) end)))
    as (Hf & Hm & _).
  - vm_compute. reflexivity.
  - split; [exact Hf | exact Hm].
Defined.

(** C2, as stated, fails: when the host raises while the second sampled
    frame is evaluated, [execute] reports the failure and returns
    CANCELLED with the playback position left on frame 2 (it was on frame
    10, which is not among the sampled frames) and the camera left in
    quaternion mode (it was in XYZ mode). *)
Lemma export_error_skips_restore :
  let run := Exporter.execute failing_at_2 (Exporter.defaults "out.json")
               (fun _ => Ok tt) euler_camera_scene in
  snd run = Ok (CANCELLED, None) /\
  reports (fst run) = [ERROR "Export failed: frame evaluation failed"] /\
  frame_current euler_camera_scene = 10%Z /\ frame_current (fst run) = 2%Z /\
  rotation_modes euler_camera_scene = [XYZ] /\
  rotation_modes (fst run) = [QUATERNION] /\
  ~ restores_state run euler_camera_scene.
Proof.
  intros run. repeat (split; [vm_compute; reflexivity|]).
  unfold restores_state. vm_compute. discriminate.
Qed.

(* ================================================================== *)
(** * The scale steps *)
(* ================================================================== *)

Section ScaleSteps.
Local Open Scope Q_scope.

Local Notation "'u'" := (1 # 16777216).
Local Notation "'eta'" := (1 # 1427247692705959881058285969449495136382746624).

(** The factor in single precision stays within the declared range, up
    to its rounding. *)
Lemma single_factor (f : Q) :
  1 # 1000 <= f <= 1000 ->
  1 # 1024 <= mathutils.single f <= 1001.
Proof.
  intros [Hlo Hhi]. pose proof (single_error f) as He.
  rewrite (Qabs_pos f) in He by lra. apply Qabs_le_iff in He. lra.
Qed.

(** One component through the two scale steps: times the factor in the
    import, times its reciprocal in the export. *)
Lemma scale_component (x f : Q) :
  1 # 1000 <= f <= 1000 ->
  let s := mathutils.single f in
  let r := mathutils.single (1 / s) in
  let a := mathutils.single (mathutils.single x * s) in
  let b := mathutils.single (mathutils.single a * r) in
  Qabs (b - x) <= 0.0000003 * Qabs x + 0.0000000000000000000000000000000000000001 /\
  (Qabs x <= 100000000000000000000000000000000000 -> Qabs a <= float.max32).
Proof.
  intros Hf s r a b.
  destruct (single_factor f Hf) as [Hs1 Hs2]. fold s in Hs1, Hs2.
  assert (0 < s) as Hs by lra.
  assert (0 < / s) as Hsi by (apply Qinv_lt_0_compat, Hs).
  assert (/ s <= 1024) as Hsi2.
  { assert (/ s == 1 / s) as -> by (field; lra).
    apply Qle_shift_div_r; [exact Hs | lra]. }
  set (x1 := mathutils.single x) in *.
  set (a1 := mathutils.single a) in *.
  pose proof (single_error x) as E1. fold x1 in E1.
  pose proof (single_error (x1 * s)) as E2. fold a in E2.
  pose proof (single_error a) as E3. fold a1 in E3.
  pose proof (single_error (1 / s)) as Er. fold r in Er.
  pose proof (single_error (a1 * r)) as E4. fold b in E4.
  pose proof (Qabs_nonneg x) as N0. pose proof (Qabs_nonneg x1) as N1.
  pose proof (Qabs_nonneg a) as N2. pose proof (Qabs_nonneg a1) as N3.
  rewrite Qabs_Qmult, (Qabs_pos s) in E2 by lra.
  rewrite (Qabs_pos (1 / s)) in Er
    by (apply Qlt_le_weak; assert (1 / s == / s) as -> by (field; lra); exact Hsi).
  (* the chain in units of the position *)
  set (w2 := a / s) in *. set (w3 := a1 / s) in *. set (w4 := a1 * r) in *.
  assert (Qabs (w2 - x1) <= u * Qabs x1 + 1024 * eta) as D2.
  { assert (w2 - x1 == (a - x1 * s) / s) as -> by (unfold w2; field; lra).
    rewrite Qabs_div_pos by exact Hs.
    apply Qle_shift_div_r; [exact Hs|].
    eapply Qle_trans; [exact E2|]. clear - N1 Hs Hs1. nra. }
  assert (Qabs w2 == Qabs a / s) as W2 by (apply Qabs_div_pos, Hs).
  assert (Qabs w3 == Qabs a1 / s) as W3 by (apply Qabs_div_pos, Hs).
  assert (Qabs a == Qabs w2 * s) as A2 by (rewrite W2; field; lra).
  assert (Qabs a1 == Qabs w3 * s) as A3 by (rewrite W3; field; lra).
  pose proof (Qabs_nonneg w2) as M2. pose proof (Qabs_nonneg w3) as M3.
  assert (Qabs (w3 - w2) <= u * Qabs w2 + 1024 * eta) as D3.
  { assert (w3 - w2 == (a1 - a) / s) as -> by (unfold w3, w2; field; lra).
    rewrite Qabs_div_pos by exact Hs.
    apply Qle_shift_div_r; [exact Hs|].
    eapply Qle_trans; [exact E3|]. rewrite A2. clear - M2 Hs Hs1. nra. }
  assert (Qabs (w4 - w3) <= (u + 1001 * eta) * Qabs w3) as D4.
  { assert (w4 - w3 == a1 * (r - 1 / s)) as -> by (unfold w4, w3; field; lra).
    rewrite Qabs_Qmult, A3.
    set (d := Qabs (r - 1 / s)) in *.
    assert (d * s <= u + eta * s) as Hd.
    { assert (u + eta * s == (u * (1 / s) + eta) * s) as -> by (field; lra).
      apply Qmult_le_compat_r; lra. }
    pose proof (Qabs_nonneg (r - 1 / s)) as Nd. fold d in Nd.
    assert (Qabs w3 * s * d == Qabs w3 * (d * s)) as -> by ring.
    set (t := d * s) in *. clear - Hd Nd M3 Hs2 Hs. clearbody t. nra. }
  pose proof (Qabs_nonneg w4) as M4.
  fold w4 in E4.
  pose proof (perturbed _ _ _ _ E1) as P1.
  pose proof (perturbed _ _ _ _ D2) as P2.
  pose proof (perturbed _ _ _ _ D3) as P3.
  assert (Qabs w4 <= (1 + (u + 1001 * eta)) * Qabs w3) as P4.
  { assert (Qabs (w4 - w3) <= (u + 1001 * eta) * Qabs w3 + 0) as D4' by lra.
    pose proof (perturbed _ _ _ _ D4'). lra. }
  split.
  - assert (b - x == (b - w4) + (w4 - w3) + (w3 - w2) + (w2 - x1) + (x1 - x)) as ->
      by ring.
    pose proof (Qabs_triangle ((b - w4) + (w4 - w3) + (w3 - w2) + (w2 - x1)) (x1 - x)).
    pose proof (Qabs_triangle ((b - w4) + (w4 - w3) + (w3 - w2)) (w2 - x1)).
    pose proof (Qabs_triangle ((b - w4) + (w4 - w3)) (w3 - w2)).
    pose proof (Qabs_triangle (b - w4) (w4 - w3)).
    clear - E1 E4 D2 D3 D4 P1 P2 P3 P4 N0 N1 M2 M3 M4 H H0 H1 H2.
    clearbody b w4 w3 w2 x1.
    lra.
  - intros Hx. rewrite A2.
    assert (Qabs w2 * s <= Qabs w2 * 1001) by (clear - M2 Hs2; nra).
    unfold float.max32.
    assert (2 ^ 128 - 2 ^ 104 == 340282346638528859811704183484516925440) as ->
      by reflexivity.
    lra.
Qed.

(** The two steps on a vector. *)
Lemma scale_steps (p : Vector) (f : Q) :
  1 # 1000 <= f <= 1000 ->
  exists p',
    mathutils.idiv (mathutils.imul p f) f = Ok p' /\
    mathutils.vnear 0.0000003 0.0000000000000000000000000000000000000001 p' p /\
    (mathutils.vbounded 100000000000000000000000000000000000 p ->
     mathutils.vbounded float.max32 (mathutils.imul p f)).
Proof.
  intros Hf. unfold mathutils.idiv.
  destruct (single_factor f Hf) as [Hs _].
  destruct (Qeq_bool (mathutils.single f) 0) eqn:Hz.
  { apply Qeq_bool_iff in Hz. lra. }
  eexists. split; [reflexivity|].
  unfold mathutils.vnear, mathutils.vbounded, mathutils.imul. cbn [vx vy vz].
  destruct (scale_component (vx p) f Hf) as [Hx Bx].
  destruct (scale_component (vy p) f Hf) as [Hy By].
  destruct (scale_component (vz p) f Hf) as [Hzz Bz].
  split; [split; [exact Hx | split; [exact Hy | exact Hzz]]|].
  intros (B1 & B2 & B3). auto.
Qed.
End ScaleSteps.

(** The record of a sampled frame carries the position that the scale
    step of the export returns. *)
Lemma export_frame_scaled evaluate self camera fps frame_num h h' r o :
  Exporter.export_frame evaluate self camera fps frame_num h = (h', Ok r) ->
  objects h' !! camera = Some o ->
  exists time p',
    Exporter.scaled self
      (fst (Exporter.converted self (location o) (rotation_quaternion o))) = Ok p' /\
    r = Exporter.frame_record self time p'
          (snd (Exporter.converted self (location o) (rotation_quaternion o))).
Proof.
  unfold Exporter.export_frame, bind, gets, lift, ret, bpy.get_object.
  destruct (bpy.frame_set evaluate frame_num h) as [h1 [[]|e]]; [|discriminate].
  destruct (py_truediv _ _) as [time|]; [|discriminate].
  destruct (objects h1 !! camera) as [o1|] eqn:Ho1; [|discriminate].
  destruct (Exporter.converted self (location o1) (rotation_quaternion o1))
    as [pc qc] eqn:Hc.
  destruct (Exporter.scaled self pc) as [p'|] eqn:Hp; [|discriminate].
  intros [= <- <-] Ho. rewrite Ho1 in Ho. injection Ho as <-.
  rewrite Hc. cbn [fst snd]. eauto.
Qed.

(** C9. For every position and every scale factor the operators can
    have (between 0.001 and 1000, the declared range of [scale_factor]),
    the scale step of the import (times the factor) followed by the scale
    step of the export (divided by the factor) does not raise and returns
    the position within the tolerance of single-precision rounding: a
    relative error of 0.0000003 on every component (and 1e-40 for a
    component that underflows), hence within 0.00001 for a position up to
    30 units from the origin on every axis.  The position is within the
    finite range of single precision in between, when it starts within
    1e35.  The two
    steps are the ones of the pipelines: the import keys the scaled
    position when no delta is applied, and the record of a sampled frame
    carries what the scale step of the export returns. *)
Theorem scale_round_trip (imp : Importer.Props) (exp : Exporter.Props)
    (p : Vector) (q : Quaternion) (f : Q) :
  Importer.scale_factor imp = f ->
  Exporter.scale_factor exp = f ->
  (1 # 1000 <= f <= 1000)%Q ->
  let p_converted := fst (Importer.converted imp p q) in
  let p_scaled := fst (Importer.scaled imp p q) in
  mathutils.vbounded 100000000000000000000000000000000000 p_converted ->
  mathutils.vbounded float.max32 p_scaled /\
  exists p',
    Exporter.scaled exp p_scaled = Ok p' /\
    mathutils.vnear 0.0000003 0.0000000000000000000000000000000000000001
      p' p_converted /\
    (mathutils.vbounded 30 p_converted -> mathutils.vclose 0.00001 p' p_converted) /\
    (Importer.apply_deltas imp = false ->
     forall initial_pos initial_rot q0 p0,
       fst (Importer.final imp initial_pos initial_rot q0 p0 p q) = p_scaled) /\
    (forall evaluate camera fps frame_num h h' r o q_converted,
        Exporter.export_frame evaluate exp camera fps frame_num h = (h', Ok r) ->
        objects h' !! camera = Some o ->
        Exporter.converted exp (location o) (rotation_quaternion o)
          = (p_scaled, q_converted) ->
        exists time, r = Exporter.frame_record exp time p' q_converted).
Proof.
  intros Hi He Hf p_converted p_scaled Hb. subst p_converted p_scaled.
  unfold Importer.final, Exporter.scaled.
  unfold Importer.scaled.
  destruct (Importer.converted imp p q) as [pc qc]. cbn [fst] in *.
  rewrite Hi, He.
  destruct (scale_steps pc f Hf) as (p' & Hp' & Hnear & Hrange).
  split; [exact (Hrange Hb)|]. exists p'.
  split; [exact Hp'|]. split; [exact Hnear|]. split; [|split].
  - destruct Hnear as (Hx & Hy & Hz). intros (Bx & By & Bz).
    repeat split; lra.
  - intros -> initial_pos initial_rot q0 p0. reflexivity.
  - intros evaluate camera fps frame_num h h' r o q_converted Hrun Ho Hc.
    destruct (export_frame_scaled _ _ _ _ _ _ _ _ _ Hrun Ho) as (time & p1 & Hp1 & ->).
    rewrite Hc in *. cbn [fst snd] in *.
    unfold Exporter.scaled in Hp1. rewrite He, Hp' in Hp1. injection Hp1 as <-.
    eauto.
Qed.

Lemma scale_round_trip_witness :
  let imp := Importer.mkProps "a.json" true false (5 # 2) BLENDER false 30 in
  let exp := Exporter.mkProps "b.json" true (5 # 2) WEBXR Exporter.ALL_FRAMES 1 true
               "local-floor" in
  let p := mkVector 1 (-2) (7 # 3) in
  exists p',
    Exporter.scaled exp (fst (Importer.scaled imp p mathutils.identity)) = Ok p' /\
    mathutils.vnear 0.0000003 0.0000000000000000000000000000000000000001
      p' (mkVector 1 (- (7 # 3)) (-2)).
Proof.
  intros imp exp p.
  destruct (scale_round_trip imp exp p mathutils.identity (5 # 2))
    as (_ & p' & Hp' & Hnear & _).
  - reflexivity.
  - reflexivity.
  - split; unfold Qle; simpl; lia.
  - repeat split; unfold Qle; simpl; lia.
  - exists p'. split; [exact Hp' | exact Hnear].
Defined.
